(** * KitelyView web client: a shallow embedding of the 3D world view

    The development follows the JavaScript sources of the web client:

    - [static/js/three/scene.js]  (SceneManager, TerrainManager, SimplexNoise,
      AvatarManager),
    - [static/js/three/object.js] (ObjectManager),
    - [static/js/main.js]         (status label, region display, teleport
      handler, polling loop).

    JavaScript numbers are IEEE-754 binary64 values and are modelled by Rocq's
    primitive [float]; a store into a [Float32Array] (the position array of
    a three.js geometry) rounds the number to single precision; object
    identity is modelled by a heap of meshes indexed
    by allocation address; the DOM elements the code writes to are fields of
    explicit state records. What belongs to the browser or to three.js (the
    raycaster, [Math.sin], [Math.random], number printing) enters as an
    argument of the operation that consults it. *)

From Stdlib Require Import ZArith Ascii String Floats HexString.
From stdpp Require Import gmap strings list pretty sorting.

Set Warnings "-inexact-float".
Set Default Proof Using "Type".

Local Open Scope Z_scope.

(** ** JavaScript numbers *)

Module JS.

(** [Math.floor] of a finite number, as a mathematical integer. For the
    non-finite values and for both zeros the result is [0]; the callers
    below only use it behind an integer conversion, where JavaScript maps
    [NaN] and the infinities to [0] as well. *)
Definition floorZ (x : float) : Z :=
  match Prim2SF x with
  | S754_finite s m e => Z.shiftl (if s then Z.neg m else Z.pos m) e
  | _ => 0
  end.

(** [ToInt32]: reduction modulo [2^32] into the signed 32-bit range. *)
Definition ToInt32 (n : Z) : Z :=
  let r := n mod 2 ^ 32 in
  if r <? 2 ^ 31 then r else r - 2 ^ 32.

(** [Math.floor(x) & m] for a 32-bit mask [m]. *)
Definition floor_and (x : float) (m : Z) : Z :=
  Z.land (ToInt32 (floorZ x)) m.

(** An integer in the range of exact doubles, read back as a number. *)
Definition of_Z (n : Z) : float :=
  if n <? 0 then PrimFloat.opp (PrimFloat.of_uint63 (Uint63.of_Z (- n)))
  else PrimFloat.of_uint63 (Uint63.of_Z n).

(** [n.toString(16)] for a non-negative integer-valued number. *)
Definition toString16 (n : Z) : string :=
  match n with
  | Zpos p => HexString.Raw.of_pos p ""
  | _ => "0"
  end.

(** The conversion a store into a [Float32Array] applies to the number
    ([Math.fround]): round to the nearest binary32 value, ties to even,
    overflow to the infinity of the sign; [NaN], the infinities and the
    zeros are kept. The result is read back as a double without change. *)
Definition fround (x : float) : float :=
  match Prim2SF x with
  | S754_finite s m e => SF2Prim (SpecFloat.binary_round 24 128 s m e)
  | _ => x
  end.

(** [a > b] on numbers. *)
Definition gt (a b : float) : bool := PrimFloat.ltb b a.

Definition Math_PI : float := 3.141592653589793%float.

End JS.

(** ** three.js values used by the scene and the object manager *)

Record Vec3 : Type := mkVec3 { vx : float; vy : float; vz : float }.

Definition vec3_zero : Vec3 := mkVec3 0 0 0.
Definition vec3_one : Vec3 := mkVec3 1 1 1.

(** A geometry is recorded as the constructor call that built it. The four
    trailing angles of [SphereGeometry] are optional in three.js. *)
Inductive Geometry : Type :=
| BoxGeometry (w h d : float)
| SphereGeometry (radius : float) (wseg hseg : Z)
                 (angles : option (float * float * float * float))
| CylinderGeometry (rtop rbottom height : float) (seg : Z)
| ConeGeometry (radius height : float) (seg : Z)
| TorusGeometry (radius tube : float) (rseg tseg : Z).

(** The highlight written by [selectObject], and the emissive colour a
    freshly constructed [MeshStandardMaterial] carries in three.js. *)
Definition highlightHex : Z := 0x333333.
Definition defaultEmissiveHex : Z := 0x000000.

(** [MeshStandardMaterial] as [createObject] builds and [editSelectedObject]
    mutates it. [color] is the CSS colour string handed to [THREE.Color];
    [emissive] is the hex value read by [getHex] and written by [setHex]. *)
Record Material : Type := mkMaterial {
  color : string;
  transparent : bool;
  opacity : float;
  roughness : float;
  metalness : float;
  emissive : Z
}.

Record UserData : Type := mkUserData {
  ud_id : Z;
  ud_isPhysical : bool;
  ud_isPhantom : bool;
  ud_isTemporary : bool
}.

(** A [THREE.Mesh] placed by the object manager. [currentHex] is the
    property [selectObject] adds to the mesh; it is [None] (undefined) until
    the mesh is selected for the first time. *)
Record Mesh : Type := mkMesh {
  geometry : Geometry;
  material : Material;
  position : Vec3;
  rotation : Vec3;
  scale : Vec3;
  castShadow : bool;
  receiveShadow : bool;
  userData : UserData;
  currentHex : option Z
}.

Definition set_emissive (h : Z) (m : Mesh) : Mesh :=
  let mt := material m in
  mkMesh (geometry m)
         (mkMaterial (color mt) (transparent mt) (opacity mt) (roughness mt)
                     (metalness mt) h)
         (position m) (rotation m) (scale m) (castShadow m) (receiveShadow m)
         (userData m) (currentHex m).

Definition set_currentHex (h : option Z) (m : Mesh) : Mesh :=
  mkMesh (geometry m) (material m) (position m) (rotation m) (scale m)
         (castShadow m) (receiveShadow m) (userData m) h.

(** [emissive.setHex(v)] where [v] may be undefined: three.js floors the
    argument and extracts the channels with bit operations, which sends
    [undefined] to black. *)
Definition setHex_arg (v : option Z) : Z := default 0 v.

(** ** object.js: the record kept by the registry *)

Record ObjectData : Type := mkObjectData {
  od_id : Z;
  od_type : string;
  od_position : Vec3;
  od_rotation : Vec3;
  od_scale : Vec3;
  od_color : string;
  od_transparency : float;
  od_isPhysical : bool;
  od_isPhantom : bool;
  od_isTemporary : bool
}.

(** The contents of the build form at the moment a button is clicked. *)
Record BuildForm : Type := mkBuildForm {
  form_type : string;
  form_size : float;
  form_color : string;
  form_transparency : float;
  form_physical : bool;
  form_phantom : bool;
  form_temporary : bool
}.

Record InventoryItem : Type := mkInventoryItem {
  item_name : string;
  item_type : string
}.

(** The two custom events of scene.js. *)
Inductive CustomEvent : Type :=
| objectSelected (detail : nat)
| objectDeselected.

(** ** The state shared by SceneManager, ObjectManager and the document *)

Record World : Type := mkWorld {
  heap : gmap nat Mesh;            (* the meshes, by allocation address *)
  next_ref : nat;                  (* next free address *)
  scene_children : list nat;       (* this.scene (placed objects only) *)
  sm_objects : list nat;           (* SceneManager.objects *)
  selectedObject : option nat;     (* SceneManager.selectedObject *)
  edit_disabled : bool;            (* #edit-object.disabled *)
  delete_disabled : bool;          (* #delete-object.disabled *)
  dispatched : list CustomEvent;   (* document.dispatchEvent, oldest first *)
  om_objects : list ObjectData;    (* ObjectManager.objects *)
  nextObjectId : Z;                (* ObjectManager.nextObjectId *)
  system_log : list (string * string)  (* #system-log: message, level *)
}.

(** The page as it is once the three managers are constructed. Whether the
    edit and delete buttons start disabled is decided by the page's markup
    and is an argument here. *)
Definition initial_world (buttons_disabled : bool) : World :=
  mkWorld ∅ 0%nat [] [] None buttons_disabled buttons_disabled [] [] 1 [].

Definition with_heap (f : gmap nat Mesh -> gmap nat Mesh) (w : World) : World :=
  mkWorld (f (heap w)) (next_ref w) (scene_children w) (sm_objects w)
          (selectedObject w) (edit_disabled w) (delete_disabled w)
          (dispatched w) (om_objects w) (nextObjectId w) (system_log w).

Definition with_selection (s : option nat) (w : World) : World :=
  mkWorld (heap w) (next_ref w) (scene_children w) (sm_objects w)
          s (edit_disabled w) (delete_disabled w)
          (dispatched w) (om_objects w) (nextObjectId w) (system_log w).

Definition with_buttons (disabled : bool) (w : World) : World :=
  mkWorld (heap w) (next_ref w) (scene_children w) (sm_objects w)
          (selectedObject w) disabled disabled
          (dispatched w) (om_objects w) (nextObjectId w) (system_log w).

(** [document.dispatchEvent]. The listeners of the two events
    (BuildingManager) write the controls of the build form and set the two
    buttons to the value [selectObject] or [deselectObject] has just given
    them; the form's contents reach the operations below as arguments. *)
Definition dispatchEvent (e : CustomEvent) (w : World) : World :=
  mkWorld (heap w) (next_ref w) (scene_children w) (sm_objects w)
          (selectedObject w) (edit_disabled w) (delete_disabled w)
          (dispatched w ++ [e]) (om_objects w) (nextObjectId w) (system_log w).

Definition with_scene (children objs : list nat) (w : World) : World :=
  mkWorld (heap w) (next_ref w) children objs
          (selectedObject w) (edit_disabled w) (delete_disabled w)
          (dispatched w) (om_objects w) (nextObjectId w) (system_log w).

Definition with_records (f : list ObjectData -> list ObjectData) (w : World) : World :=
  mkWorld (heap w) (next_ref w) (scene_children w) (sm_objects w)
          (selectedObject w) (edit_disabled w) (delete_disabled w)
          (dispatched w) (f (om_objects w)) (nextObjectId w) (system_log w).

Definition addLogEntry (message level : string) (w : World) : World :=
  mkWorld (heap w) (next_ref w) (scene_children w) (sm_objects w)
          (selectedObject w) (edit_disabled w) (delete_disabled w)
          (dispatched w) (om_objects w) (nextObjectId w)
          (system_log w ++ [(message, level)]).

(** ** scene.js: SceneManager *)

(** [indexOf] and [splice(index, 1)] on an array of references. *)
Definition indexOf (r : nat) (l : list nat) : option nat :=
  fst <$> list_find (λ x, x = r) l.

Definition remove_ref (r : nat) (l : list nat) : list nat :=
  match indexOf r l with
  | Some i => delete i l
  | None => l
  end.

Definition restore_highlight (a : nat) (w : World) : World :=
  with_heap (alter (λ m, set_emissive (setHex_arg (currentHex m)) m) a) w.

Definition selectObject (object : nat) (w : World) : World :=
  let w1 := match selectedObject w with
            | Some a => restore_highlight a w
            | None => w
            end in
  let w2 := with_selection (Some object) w1 in
  let w3 := with_heap (alter (λ m, set_currentHex (Some (emissive (material m))) m) object) w2 in
  let w4 := with_heap (alter (set_emissive highlightHex) object) w3 in
  let w5 := with_buttons false w4 in
  dispatchEvent (objectSelected object) w5.

Definition deselectObject (w : World) : World :=
  match selectedObject w with
  | Some a =>
      let w1 := restore_highlight a w in
      let w2 := with_selection None w1 in
      let w3 := with_buttons true w2 in
      dispatchEvent objectDeselected w3
  | None => w
  end.

Definition addObject (object : nat) (w : World) : World :=
  with_scene (scene_children w ++ [object]) (sm_objects w ++ [object]) w.

Definition removeObject (object : nat) (w : World) : World :=
  let w1 := with_scene (remove_ref object (scene_children w))
                       (remove_ref object (sm_objects w)) w in
  if decide (selectedObject w1 = Some object)
  then with_buttons true (with_selection None w1)
  else w1.

(** [onMouseDown]: the raycaster's answer is the position, in
    [SceneManager.objects], of the nearest object under the pointer, if any. *)
Definition onMouseDown (hit : option nat) (w : World) : World :=
  match hit ≫= (λ i, sm_objects w !! i) with
  | Some object => selectObject object w
  | None => deselectObject w
  end.

(** ** object.js: ObjectManager *)

Definition geometry_of_type (type : string) : Geometry :=
  if decide (type = "box") then BoxGeometry 1 1 1
  else if decide (type = "sphere") then SphereGeometry 0.5 32 32 None
  else if decide (type = "cylinder") then CylinderGeometry 0.5 0.5 1 32
  else if decide (type = "prism") then ConeGeometry 0.5 1 4
  else if decide (type = "torus") then TorusGeometry 0.5 0.2 16 32
  else BoxGeometry 1 1 1.

(** The mesh [createObject] constructs from a record, before it is handed
    to the scene. *)
Definition mesh_of_data (d : ObjectData) : Mesh :=
  mkMesh (geometry_of_type (od_type d))
         (mkMaterial (od_color d)
                     (JS.gt (od_transparency d) 0)
                     (1 - od_transparency d)%float
                     0.7 0.3 defaultEmissiveHex)
         (od_position d) (od_rotation d) (od_scale d)
         true true
         (mkUserData (od_id d) (od_isPhysical d) (od_isPhantom d) (od_isTemporary d))
         None.

(** [new THREE.Mesh(...)]: the mesh gets the next free address. *)
Definition alloc_mesh (m : Mesh) (w : World) : nat * World :=
  (next_ref w,
   mkWorld (<[next_ref w := m]> (heap w)) (S (next_ref w)) (scene_children w)
           (sm_objects w) (selectedObject w) (edit_disabled w)
           (delete_disabled w) (dispatched w) (om_objects w) (nextObjectId w)
           (system_log w)).

Definition createObject (d : ObjectData) (w : World) : nat * World :=
  let '(object, w1) := alloc_mesh (mesh_of_data d) w in
  (object, addObject object w1).

(** [this.nextObjectId++]: the old value is the result. The counter is an
    integer counted up from 1, far inside the range where doubles are exact
    integers. *)
Definition take_id (w : World) : Z * World :=
  (nextObjectId w,
   mkWorld (heap w) (next_ref w) (scene_children w) (sm_objects w)
           (selectedObject w) (edit_disabled w) (delete_disabled w)
           (dispatched w) (om_objects w) (nextObjectId w + 1) (system_log w)).

Definition createObjectFromUI (f : BuildForm) (w : World) : World :=
  let size := form_size f in
  let '(id, w1) := take_id w in
  let objectData :=
    mkObjectData id (form_type f)
                 (mkVec3 0 (size / 2)%float 0) vec3_zero (mkVec3 size size size)
                 (form_color f) (form_transparency f)
                 (form_physical f) (form_phantom f) (form_temporary f) in
  let '(_, w2) := createObject objectData w1 in
  (* a mesh reference is always truthy *)
  let w3 := with_records (λ l, l ++ [objectData]) w2 in
  addLogEntry ("Created " +:+ form_type f +:+ " object with ID: " +:+ pretty id)
              "info" w3.

Definition getTypeFromItem (item : InventoryItem) : string :=
  if decide (item_type item = "mesh") then "mesh"
  else if decide (item_type item = "texture") then "box"
  else if decide (item_type item = "object") then "box"
  else "box".

(** [random] is the value [Math.random()] returns for this call. *)
Definition loadObjectFromInventory (item : InventoryItem) (random : float)
    (w : World) : World :=
  let '(id, w1) := take_id w in
  let objectData :=
    mkObjectData id (getTypeFromItem item)
                 (mkVec3 0 1 0) vec3_zero vec3_one
                 ("#" +:+ JS.toString16 (JS.floorZ (random * 16777215)%float))
                 0 false false false in
  let '(_, w2) := createObject objectData w1 in
  let w3 := with_records (λ l, l ++ [objectData]) w2 in
  addLogEntry ("Created object from inventory item: " +:+ item_name item)
              "info" w3.

(** inventory.js, [handleObjectDrop]: the caller of the above. *)
Definition handleObjectDrop (item : InventoryItem) (random : float)
    (w : World) : World :=
  addLogEntry ("Placed " +:+ item_name item +:+ " from inventory") "info"
              (loadObjectFromInventory item random w).

Definition findIndex_id (objectId : Z) (l : list ObjectData) : option nat :=
  fst <$> list_find (λ o, od_id o = objectId) l.

Definition edit_mesh (f : BuildForm) (m : Mesh) : Mesh :=
  let size := form_size f in
  let mt := material m in
  mkMesh (geometry m)
         (mkMaterial (form_color f)
                     (JS.gt (form_transparency f) 0)
                     (1 - form_transparency f)%float
                     (roughness mt) (metalness mt) (emissive mt))
         (position m) (rotation m) (mkVec3 size size size)
         (castShadow m) (receiveShadow m)
         (mkUserData (ud_id (userData m)) (form_physical f) (form_phantom f)
                     (form_temporary f))
         (currentHex m).

Definition edit_data (f : BuildForm) (d : ObjectData) : ObjectData :=
  let size := form_size f in
  mkObjectData (od_id d) (od_type d) (od_position d) (od_rotation d)
               (mkVec3 size size size) (form_color f) (form_transparency f)
               (form_physical f) (form_phantom f) (form_temporary f).

(** [editSelectedObject]. A selected reference always designates a mesh;
    the [None] branch of the heap lookup stands for the [TypeError] that
    reading [userData] of a non-object would raise, and leaves the state
    as it is. *)
Definition editSelectedObject (f : BuildForm) (w : World) : World :=
  match selectedObject w with
  | None => w
  | Some object =>
      match heap w !! object with
      | None => w
      | Some m =>
          let objectId := ud_id (userData m) in
          match findIndex_id objectId (om_objects w) with
          | None => w
          | Some objectDataIndex =>
              let w1 := with_heap (alter (edit_mesh f) object) w in
              let w2 := with_records (alter (edit_data f) objectDataIndex) w1 in
              addLogEntry ("Updated object with ID: " +:+ pretty objectId)
                          "info" w2
          end
      end
  end.

Definition deleteSelectedObject (w : World) : World :=
  match selectedObject w with
  | None => w
  | Some object =>
      match heap w !! object with
      | None => w
      | Some m =>
          let objectId := ud_id (userData m) in
          let w1 := removeObject object w in
          let w2 := match findIndex_id objectId (om_objects w1) with
                    | Some objectIndex => with_records (delete objectIndex) w1
                    | None => w1
                    end in
          addLogEntry ("Deleted object with ID: " +:+ pretty objectId) "info" w2
      end
  end.

(** ** The user's operations on the world *)

Inductive Op : Type :=
| CreateFromUI (f : BuildForm)
| PlaceFromInventory (item : InventoryItem) (random : float)
| EditSelected (f : BuildForm)
| DeleteSelected
| MouseDown (hit : option nat).

Definition step (w : World) (o : Op) : World :=
  match o with
  | CreateFromUI f => createObjectFromUI f w
  | PlaceFromInventory item random => handleObjectDrop item random w
  | EditSelected f => editSelectedObject f w
  | DeleteSelected => deleteSelectedObject w
  | MouseDown hit => onMouseDown hit w
  end.

Definition run (ops : list Op) (w : World) : World := foldl step w ops.

(** What the two lists expose by id. *)
Definition node_id (w : World) (r : nat) : option Z :=
  (λ m, ud_id (userData m)) <$> heap w !! r.

Definition node_ids (w : World) : list (option Z) := node_id w <$> sm_objects w.
Definition record_ids (w : World) : list Z := od_id <$> om_objects w.

(** A mesh and a record describe the same object. *)
Definition agrees (m : Mesh) (d : ObjectData) : Prop :=
  ud_id (userData m) = od_id d ∧
  geometry m = geometry_of_type (od_type d) ∧
  position m = od_position d ∧
  rotation m = od_rotation d ∧
  scale m = od_scale d ∧
  color (material m) = od_color d ∧
  transparent (material m) = JS.gt (od_transparency d) 0 ∧
  opacity (material m) = (1 - od_transparency d)%float ∧
  ud_isPhysical (userData m) = od_isPhysical d ∧
  ud_isPhantom (userData m) = od_isPhantom d ∧
  ud_isTemporary (userData m) = od_isTemporary d.

Definition corresponds (w : World) : Prop :=
  Forall2 (λ r d, ∃ m, heap w !! r = Some m ∧ agrees m d)
          (sm_objects w) (om_objects w).

(** The emissive value currently shown by a mesh, and the value it carries
    underneath a highlight: for the selected mesh that is the value saved in
    [currentHex], for every other mesh it is the emissive itself. *)
Definition shown_emissive (w : World) (r : nat) : option Z :=
  (λ m, emissive (material m)) <$> heap w !! r.

Definition saved_emissive (w : World) (r : nat) : option Z :=
  heap w !! r ≫= currentHex.

Definition original_emissive (w : World) (r : nat) : option Z :=
  if decide (selectedObject w = Some r) then saved_emissive w r
  else shown_emissive w r.

(** What [selectObject] and [deselectObject] do to one mesh of the heap. *)
Definition restore_mesh (m : Mesh) : Mesh :=
  set_emissive (setHex_arg (currentHex m)) m.

Definition select_mesh (w : World) (object r : nat) (m : Mesh) : Mesh :=
  let m1 := if decide (selectedObject w = Some r) then restore_mesh m else m in
  if decide (object = r)
  then set_emissive highlightHex
         (set_currentHex (Some (emissive (material m1))) m1)
  else m1.

(** The state invariant of the scene and the registry. *)
Record world_inv (w : World) : Prop := mk_world_inv {
  inv_corresponds : corresponds w;
  inv_ids_nodup : NoDup (record_ids w);
  inv_ids_bound : Forall (λ d, od_id d < nextObjectId w) (om_objects w);
  inv_refs_nodup : NoDup (sm_objects w);
  inv_refs_bound : Forall (λ r, (r < next_ref w)%nat) (sm_objects w);
  inv_children : scene_children w = sm_objects w;
  inv_selected : ∀ r, selectedObject w = Some r → r ∈ sm_objects w;
  inv_emissive : ∀ r m, r ∈ sm_objects w → heap w !! r = Some m →
    if decide (selectedObject w = Some r)
    then emissive (material m) = highlightHex
         ∧ currentHex m = Some defaultEmissiveHex
    else emissive (material m) = defaultEmissiveHex
}.

(** The state reached from the freshly loaded page by a sequence of
    operations, and the operation sequence of a series of pointer hits. *)
Definition reached (buttons_disabled : bool) (ops : list Op) : World :=
  run ops (initial_world buttons_disabled).

Definition picks (hits : list nat) : list Op :=
  (λ i, MouseDown (Some i)) <$> hits.

(** A build form for the examples below. *)
Definition example_form : BuildForm :=
  mkBuildForm "box" 2 "#f44336" 0 false false false.

(** A mesh whose material glows with the emissive [e], and a world with
    two such meshes and no selection, for the examples below. *)
Definition glowing_mesh (id e : Z) : Mesh :=
  set_emissive e
    (mesh_of_data (mkObjectData id "box" vec3_zero vec3_zero vec3_one
                                "#ffffff" 0 false false false)).

Definition glowing_pair : World :=
  mkWorld {[ 0%nat := glowing_mesh 1 0x112233;
             1%nat := glowing_mesh 2 0x445566 ]}
          2 [0; 1]%nat [0; 1]%nat None true true [] [] 3 [].

(** ** scene.js: SimplexNoise and TerrainManager.generateHeightMap *)

Module Terrain.

Section Noise.

(** [Math.sin] and [Math.cos] of the JavaScript engine. *)
Variables Math_sin Math_cos : float -> float.

Local Open Scope float_scope.

(** [noise2D]. The method reads and writes no field of its instance (the
    class has none), so it is a function of its two arguments. The locals
    [xf] and [yf] of the source are computed and never used. *)
Definition noise2D (x y : float) : float :=
  let X := JS.of_Z (JS.floor_and x 255) in
  let Y := JS.of_Z (JS.floor_and y 255) in
  let n := Math_sin (X * 0.3 + Y * 0.7) * Math_cos (X * 0.7 + Y * 0.3) in
  n.

(** The body of the loop of [generateHeightMap] for one vertex: the value
    of [height * this.maxHeight], the right-hand side of the store into the
    vertex's y slot. *)
Definition vertex_height (maxHeight x z : float) : float :=
  let height := 0 in
  let height := height + noise2D (x * 0.01) (z * 0.01) * 0.6 in
  let height := height + noise2D (x * 0.04) (z * 0.04) * 0.3 in
  let height := height + noise2D (x * 0.1) (z * 0.1) * 0.1 in
  height * maxHeight.

(** Reading an array slot; a slot outside the array reads as [undefined],
    which the arithmetic that follows turns into [NaN]. *)
Definition read (vertices : list float) (i : nat) : float :=
  default nan (vertices !! i).

(** [for (let i = 0; i < vertices.length; i += 3) ...] on the flat position
    array of the geometry. The array is the [Float32Array] of the
    geometry's position attribute: a store rounds the number to single
    precision, and a store outside the array is dropped. The list holds the
    elements as the numbers a read returns. *)
Fixpoint height_loop (fuel : nat) (maxHeight : float) (i : nat)
    (vertices : list float) : list float :=
  match fuel with
  | O => vertices
  | S fuel' =>
      if decide (i < length vertices)%nat then
        let x := read vertices i in
        let z := read vertices (i + 2) in
        height_loop fuel' maxHeight (i + 3)
                    (<[(i + 1)%nat := JS.fround (vertex_height maxHeight x z)]>
                       vertices)
      else vertices
  end.

Definition generateHeightMap (maxHeight : float) (vertices : list float)
  : list float :=
  height_loop (length vertices) maxHeight 0 vertices.

End Noise.

End Terrain.

(** ** scene.js: AvatarManager *)

Module Avatar.

Inductive ColorArg : Type :=
| CssColor (s : string)        (* new THREE.Color(string) *)
| HexColor (h : Z).            (* a numeric colour literal *)

(** A material is the constructor call that built it; [surface] holds the
    metalness and roughness when the call passes them. *)
Inductive Material : Type :=
| MeshStandardMaterial (color : ColorArg) (surface : option (float * float))
| MeshBasicMaterial (color : ColorArg).

(** A mesh of the avatar group. A new [THREE.Mesh] sits at the origin,
    unrotated, and casts no shadow until the code says otherwise. *)
Record Part : Type := mkPart {
  geometry : Geometry;
  material : Material;
  position : Vec3;
  rotation : Vec3;
  castShadow : bool
}.

Record AvatarManager : Type := mkAvatarManager {
  avatarHeight : float;
  bodyShape : string;
  skinColor : string;
  hairStyle : string;
  hairColor : string;
  outfitStyle : string;
  outfitPrimaryColor : string;
  outfitSecondaryColor : string
}.

(** The settings the constructor installs. *)
Definition default_settings : AvatarManager :=
  mkAvatarManager 1.0 "athletic" "#f2d2bd" "short" "#523b22" "casual"
                  "#3f51b5" "#f44336".

Local Open Scope float_scope.

Definition hair_geometry (style : string) : Geometry :=
  if decide (style = "short")
  then SphereGeometry 0.27 32 32 (Some (0, JS.Math_PI * 2, 0, JS.Math_PI / 2))
  else if decide (style = "ponytail") then CylinderGeometry 0.05 0.1 0.4 16
  else if decide (style = "long") then CylinderGeometry 0.25 0.15 0.6 16
  else SphereGeometry 0.27 32 32 (Some (0, JS.Math_PI * 2, 0, JS.Math_PI / 2)).

(** The [if] / [else if] chain that places the hair; it has no final
    [else]. The result is the hair's position and rotation. *)
Definition hair_placement (style : string) (h : float) : Vec3 * Vec3 :=
  if decide (style = "short")
  then (mkVec3 0 (1.6 * h + 0.03) 0, mkVec3 JS.Math_PI 0 0)
  else if decide (style = "ponytail")
  then (mkVec3 0 (1.6 * h + 0.05) (-0.2), vec3_zero)
  else if decide (style = "long")
  then (mkVec3 0 (1.45 * h) 0, vec3_zero)
  else (vec3_zero, vec3_zero).

Definition createHead (a : AvatarManager) : list Part :=
  let h := avatarHeight a in
  let head := mkPart (SphereGeometry 0.25 32 32 None)
                     (MeshStandardMaterial (CssColor (skinColor a)) None)
                     (mkVec3 0 (1.6 * h) 0) vec3_zero true in
  let '(hair_pos, hair_rot) := hair_placement (hairStyle a) h in
  let hair := mkPart (hair_geometry (hairStyle a))
                     (MeshStandardMaterial (CssColor (hairColor a)) None)
                     hair_pos hair_rot true in
  let eyeGeometry := SphereGeometry 0.05 16 16 None in
  let eyeMaterial := MeshBasicMaterial (HexColor 0x444444) in
  let leftEye := mkPart eyeGeometry eyeMaterial (mkVec3 (-0.1) (1.63 * h) 0.2)
                        vec3_zero false in
  let rightEye := mkPart eyeGeometry eyeMaterial (mkVec3 0.1 (1.63 * h) 0.2)
                         vec3_zero false in
  let mouth := mkPart (BoxGeometry 0.1 0.03 0.03)
                      (MeshBasicMaterial (HexColor 0xcc6666))
                      (mkVec3 0 (1.53 * h) 0.22) vec3_zero false in
  [head; hair; leftEye; rightEye; mouth].

Definition torso_size (shape : string) : float * float :=
  if decide (shape = "athletic") then (0.5, 0.25)
  else if decide (shape = "slim") then (0.4, 0.2)
  else if decide (shape = "heavy") then (0.6, 0.35)
  else (0.5, 0.25).

Definition torso_material (style primary : string) : Material :=
  if decide (style = "casual")
  then MeshStandardMaterial (CssColor primary) None
  else if decide (style = "formal")
  then MeshStandardMaterial (CssColor primary) (Some (0.3, 0.7))
  else if decide (style = "fantasy")
  then MeshStandardMaterial (CssColor primary) (Some (0.5, 0.5))
  else MeshStandardMaterial (CssColor primary) None.

Definition createTorso (a : AvatarManager) : list Part :=
  let h := avatarHeight a in
  let '(width, depth) := torso_size (bodyShape a) in
  [mkPart (BoxGeometry width (0.6 * h) depth)
          (torso_material (outfitStyle a) (outfitPrimaryColor a))
          (mkVec3 0 (1.2 * h) 0) vec3_zero true].

Definition arm_thickness (shape : string) : float :=
  if decide (shape = "athletic") then 0.12
  else if decide (shape = "slim") then 0.1
  else if decide (shape = "heavy") then 0.15
  else 0.12.

Definition createArms (a : AvatarManager) : list Part :=
  let h := avatarHeight a in
  let thickness := arm_thickness (bodyShape a) in
  let armMaterial := MeshStandardMaterial (CssColor (outfitSecondaryColor a)) None in
  let armGeometry := BoxGeometry thickness (0.6 * h) thickness in
  let leftArm := mkPart armGeometry armMaterial
                        (mkVec3 (-0.3 - thickness / 2) (1.2 * h) 0) vec3_zero true in
  let rightArm := mkPart armGeometry armMaterial
                         (mkVec3 (0.3 + thickness / 2) (1.2 * h) 0) vec3_zero true in
  let handGeometry := SphereGeometry (thickness * 0.8) 16 16 None in
  let handMaterial := MeshStandardMaterial (CssColor (skinColor a)) None in
  let leftHand := mkPart handGeometry handMaterial
                         (mkVec3 (-0.3 - thickness / 2) (0.9 * h) 0) vec3_zero true in
  let rightHand := mkPart handGeometry handMaterial
                          (mkVec3 (0.3 + thickness / 2) (0.9 * h) 0) vec3_zero true in
  [leftArm; rightArm; leftHand; rightHand].

Definition leg_thickness (shape : string) : float :=
  if decide (shape = "athletic") then 0.15
  else if decide (shape = "slim") then 0.12
  else if decide (shape = "heavy") then 0.18
  else 0.15.

Definition createLegs (a : AvatarManager) : list Part :=
  let h := avatarHeight a in
  let thickness := leg_thickness (bodyShape a) in
  let legMaterial := MeshStandardMaterial (CssColor (outfitSecondaryColor a)) None in
  let legGeometry := BoxGeometry thickness (0.9 * h) thickness in
  let leftLeg := mkPart legGeometry legMaterial (mkVec3 (-0.15) (0.45 * h) 0)
                        vec3_zero true in
  let rightLeg := mkPart legGeometry legMaterial (mkVec3 0.15 (0.45 * h) 0)
                         vec3_zero true in
  let shoeGeometry := BoxGeometry (thickness * 1.2) (thickness * 0.5)
                                  (thickness * 1.5) in
  let shoeMaterial := MeshStandardMaterial (HexColor 0x222222) None in
  let leftShoe := mkPart shoeGeometry shoeMaterial
                         (mkVec3 (-0.15) (thickness * 0.25) (thickness * 0.25))
                         vec3_zero true in
  let rightShoe := mkPart shoeGeometry shoeMaterial
                          (mkVec3 0.15 (thickness * 0.25) (thickness * 0.25))
                          vec3_zero true in
  [leftLeg; rightLeg; leftShoe; rightShoe].

(** [createAvatar]: the children of the new group, in the order they are
    added. *)
Definition createAvatar (a : AvatarManager) : list Part :=
  createHead a ++ createTorso a ++ createArms a ++ createLegs a.

(** An appearance update: absent fields are [undefined]. *)
Record Appearance : Type := mkAppearance {
  ap_height : option float;
  ap_bodyShape : option string;
  ap_skinColor : option string;
  ap_hairStyle : option string;
  ap_hairColor : option string;
  ap_outfitStyle : option string;
  ap_outfitPrimaryColor : option string;
  ap_outfitSecondaryColor : option string
}.

(** [updateAppearance]: the merged settings and the rebuilt avatar. *)
Definition updateAppearance (ap : Appearance) (a : AvatarManager)
  : AvatarManager * list Part :=
  let a' := mkAvatarManager
              (default (avatarHeight a) (ap_height ap))
              (default (bodyShape a) (ap_bodyShape ap))
              (default (skinColor a) (ap_skinColor ap))
              (default (hairStyle a) (ap_hairStyle ap))
              (default (hairColor a) (ap_hairColor ap))
              (default (outfitStyle a) (ap_outfitStyle ap))
              (default (outfitPrimaryColor a) (ap_outfitPrimaryColor ap))
              (default (outfitSecondaryColor a) (ap_outfitSecondaryColor ap)) in
  (a', createAvatar a').

Definition recognized_hairStyle (s : string) : Prop :=
  s = "short" ∨ s = "ponytail" ∨ s = "long".
Definition recognized_bodyShape (s : string) : Prop :=
  s = "athletic" ∨ s = "slim" ∨ s = "heavy".
Definition recognized_outfitStyle (s : string) : Prop :=
  s = "casual" ∨ s = "formal" ∨ s = "fantasy".

Definition with_hairStyle (s : string) (a : AvatarManager) : AvatarManager :=
  mkAvatarManager (avatarHeight a) (bodyShape a) (skinColor a) s (hairColor a)
                  (outfitStyle a) (outfitPrimaryColor a) (outfitSecondaryColor a).
Definition with_bodyShape (s : string) (a : AvatarManager) : AvatarManager :=
  mkAvatarManager (avatarHeight a) s (skinColor a) (hairStyle a) (hairColor a)
                  (outfitStyle a) (outfitPrimaryColor a) (outfitSecondaryColor a).
Definition with_outfitStyle (s : string) (a : AvatarManager) : AvatarManager :=
  mkAvatarManager (avatarHeight a) (bodyShape a) (skinColor a) (hairStyle a)
                  (hairColor a) s (outfitPrimaryColor a) (outfitSecondaryColor a).

End Avatar.

(** ** main.js: the page around the 3D view *)

Module Main.

Record Indicator : Type := mkIndicator {
  className : string;
  textContent : string
}.

Record Session : Type := mkSession {
  loginStatus : string;
  userName : string;
  userId : string
}.

Record RegionInfo : Type := mkRegionInfo {
  regionName : string;
  regionPosition : string
}.

(** [avatar.style.left], [avatar.style.bottom], [avatarMarker.style.left]
    and [avatarMarker.style.top], as the texts assigned to them. *)
Record Marks : Type := mkMarks {
  avatar_left : string;
  avatar_bottom : string;
  marker_left : string;
  marker_top : string
}.

Record Button : Type := mkButton {
  disabled : bool;
  label : string
}.

(** The timers created by [setInterval] that have not been cleared, the next
    timer id the browser hands out, and every request issued so far together
    with the polling loop that issued it ([None]: [startSimulation]). *)
Record Poller : Type := mkPoller {
  intervals : gset nat;
  next_interval : nat;
  requests : list (option nat * string)
}.

Record Page : Type := mkPage {
  statusIndicator : Indicator;
  session : Session;
  region : RegionInfo;
  marks : Marks;
  systemLog : list (string * string);
  chatMessages : list (string * string);
  startButton : Button;
  poller : Poller
}.

Definition set_statusIndicator (x : Indicator) (p : Page) : Page :=
  mkPage x (session p) (region p) (marks p) (systemLog p) (chatMessages p)
         (startButton p) (poller p).
Definition set_session (x : Session) (p : Page) : Page :=
  mkPage (statusIndicator p) x (region p) (marks p) (systemLog p)
         (chatMessages p) (startButton p) (poller p).
Definition set_region (x : RegionInfo) (p : Page) : Page :=
  mkPage (statusIndicator p) (session p) x (marks p) (systemLog p)
         (chatMessages p) (startButton p) (poller p).
Definition set_marks (x : Marks) (p : Page) : Page :=
  mkPage (statusIndicator p) (session p) (region p) x (systemLog p)
         (chatMessages p) (startButton p) (poller p).
Definition set_systemLog (x : list (string * string)) (p : Page) : Page :=
  mkPage (statusIndicator p) (session p) (region p) (marks p) x
         (chatMessages p) (startButton p) (poller p).
Definition set_chatMessages (x : list (string * string)) (p : Page) : Page :=
  mkPage (statusIndicator p) (session p) (region p) (marks p) (systemLog p)
         x (startButton p) (poller p).
Definition set_startButton (x : Button) (p : Page) : Page :=
  mkPage (statusIndicator p) (session p) (region p) (marks p) (systemLog p)
         (chatMessages p) x (poller p).
Definition set_poller (x : Poller) (p : Page) : Page :=
  mkPage (statusIndicator p) (session p) (region p) (marks p) (systemLog p)
         (chatMessages p) (startButton p) x.

(** Payloads, with absent fields as [None]. *)
Record User : Type := mkUser { user_name : string; user_id : string }.

Record Snapshot : Type := mkSnapshot {
  status : string;
  logged_in : bool;
  user : option User;
  current_region : option string;
  position : option (list float)
}.

Record Teleport : Type := mkTeleport {
  tp_region : option string;
  tp_position : option (list float)
}.

Inductive ServerEvent : Type :=
| LogEvent (message level : string)
| ChatEvent
| TeleportEvent
| LoginEvent
| LogoutEvent
| OtherEvent (type : string).

(** A handler either runs to its end or stops at a [TypeError]; in both
    cases the page carries the writes made so far. *)
Inductive Outcome : Type :=
| Done (p : Page)
| Threw (p : Page).

Definition page_of (o : Outcome) : Page :=
  match o with Done p | Threw p => p end.

(** ASCII whitespace, which [classList.add] refuses inside a token. *)
Definition is_whitespace (c : ascii) : bool :=
  match c with
  | " "%char | "009"%char | "010"%char | "012"%char | "013"%char => true
  | _ => false
  end.

Fixpoint has_whitespace (s : string) : bool :=
  match s with
  | EmptyString => false
  | String c s' => is_whitespace c || has_whitespace s'
  end.

Fixpoint join (sep : string) (l : list string) : string :=
  match l with
  | [] => ""
  | [s] => s
  | s :: rest => s +:+ sep +:+ join sep rest
  end.

Section Handlers.

(** The engine's conversion of a number to text (template literals,
    [Array.prototype.join]) and [String.prototype.toLowerCase]. *)
Variable Number_toString : float -> string.
Variable String_toLowerCase : string -> string.

Definition addLogEntry (message level : string) (p : Page) : Page :=
  set_systemLog (systemLog p ++ [(message, level)]) p.

Definition addChatMessage (sender message : string) (p : Page) : Page :=
  set_chatMessages (chatMessages p ++ [(sender, message)]) p.

(** The [switch] of [updateStatus]. *)
Definition status_label (status : string) : string :=
  if decide (status = "idle") then "Idle"
  else if decide (status = "starting") then "Starting..."
  else if decide (status = "initializing") then "Initializing..."
  else if decide (status = "logging_in") then "Logging in..."
  else if decide (status = "logged_in") then "Logged in"
  else if decide (status = "in_world") then "In World"
  else if decide (status = "logging_out") then "Logging out..."
  else if decide (status = "completed") then "Completed"
  else if decide (status = "error") then "Error"
  else if decide (status = "running_simulation_1") then "Running (1/3)"
  else if decide (status = "running_simulation_2") then "Running (2/3)"
  else if decide (status = "running_simulation_3") then "Running (3/3)"
  else status.

(** [updateStatus]. The class list is emptied first; [classList.add] throws
    on a token containing whitespace, before the label is written. *)
Definition updateStatus (status : string) (p : Page) : Outcome :=
  let p1 := set_statusIndicator
              (mkIndicator "" (textContent (statusIndicator p))) p in
  if has_whitespace status then Threw p1
  else Done (set_statusIndicator
               (mkIndicator ("status-" +:+ status) (status_label status)) p1).

Definition truthy_string (s : option string) : option string :=
  match s with
  | Some "" | None => None
  | Some t => Some t
  end.

Definition updateRegionInfo (region_ : option string)
    (position_ : option (list float)) (p : Page) : Page :=
  let name_ := default "Not connected" (truthy_string region_) in
  let text :=
    match position_ with
    | Some [p0; p1; p2] =>
        "Position: " +:+ Number_toString p0 +:+ ", " +:+ Number_toString p1
                     +:+ ", " +:+ Number_toString p2
    | _ => "Position: 0, 0, 0"
    end in
  set_region (mkRegionInfo name_ text) p.

(** [data.position[i]]: a missing element is [undefined], and [NaN] in the
    arithmetic that follows. *)
Definition component (l : list float) (i : nat) : float :=
  default nan (l !! i).

(** The [teleport] handler of the push channel. *)
Definition on_teleport (data : Teleport) (p : Page) : Outcome :=
  let p1 := updateRegionInfo (tp_region data) (tp_position data) p in
  match tp_position data with
  | None => Threw p1
  | Some pos =>
      let x := (component pos 0 / 256 * 100)%float in
      let y := (100 - component pos 1 / 256 * 100)%float in
      let bottom := (40 + component pos 2 / 100 * 10)%float in
      let p2 := set_marks
                  (mkMarks (Number_toString x +:+ "%")
                           (Number_toString bottom +:+ "%")
                           (Number_toString x +:+ "%")
                           (Number_toString y +:+ "%")) p1 in
      Done (addLogEntry
              ("Teleported to " +:+ default "undefined" (tp_region data)
               +:+ " at position " +:+ join ", " (Number_toString <$> pos))
              "info" p2)
  end.

Definition terminal (status_ : string) : Prop :=
  status_ = "completed" ∨ status_ = "error".

Definition clearInterval (loop : nat) (p : Page) : Page :=
  let q := poller p in
  set_poller (mkPoller (intervals q ∖ {[loop]}) (next_interval q) (requests q)) p.

(** The handler of a [/api/state] response inside the polling loop whose
    timer is [loop]. *)
Definition on_state (loop : nat) (data : Snapshot) (p : Page) : Page :=
  let p1 := if decide (terminal (status data))
            then set_startButton (mkButton false "Restart Simulation")
                                 (clearInterval loop p)
            else p in
  let p2 := match logged_in data, user data with
            | true, Some u =>
                set_session (mkSession "Logged in"
                                       ("Name: " +:+ user_name u)
                                       ("ID: " +:+ user_id u)) p1
            | _, _ =>
                set_session
                  (mkSession (if decide (status data = "completed")
                              then "Logged out" else "Not logged in") "" "") p1
            end in
  match truthy_string (current_region data) with
  | Some r => updateRegionInfo (Some r) (position data) p2
  | None => p2
  end.

Definition set_loginStatus (s : string) (p : Page) : Page :=
  set_session (mkSession s (userName (session p)) (userId (session p))) p.

Definition processEvent (e : ServerEvent) (p : Page) : Page :=
  match e with
  | LogEvent message level => addLogEntry message (String_toLowerCase level) p
  | ChatEvent => p
  | TeleportEvent => p
  | LoginEvent => addLogEntry "Login successful" "info" (set_loginStatus "Logged in" p)
  | LogoutEvent => addLogEntry "Logged out" "info" (set_loginStatus "Logged out" p)
  | OtherEvent _ => p
  end.

Definition on_events (events : list ServerEvent) (p : Page) : Page :=
  foldl (λ q e, processEvent e q) p events.

(** The body of the interval callback: two requests are issued. *)
Definition fetch (by_loop : option nat) (url : string) (p : Page) : Page :=
  let q := poller p in
  set_poller (mkPoller (intervals q) (next_interval q)
                       (requests q ++ [(by_loop, url)])) p.

Definition on_tick (loop : nat) (p : Page) : Page :=
  if decide (loop ∈ intervals (poller p))
  then fetch (Some loop) "/api/events" (fetch (Some loop) "/api/state" p)
  else p.

(** [pollEvents]: [setInterval] starts a new timer. *)
Definition pollEvents (p : Page) : Page :=
  let q := poller p in
  set_poller (mkPoller ({[next_interval q]} ∪ intervals q)
                       (S (next_interval q)) (requests q)) p.

Definition clearDisplay (p : Page) : Page :=
  set_marks (mkMarks "50%" "40%" "50%" "50%")
    (set_region (mkRegionInfo "Not connected" "Position: 0, 0, 0")
      (set_session (mkSession "Not logged in" "" "")
        (set_systemLog [] (set_chatMessages [] p)))).

Definition startSimulation (p : Page) : Page :=
  let p1 := clearDisplay p in
  let p2 := set_startButton (mkButton true "Simulation Running...") p1 in
  fetch None "/api/start" (page_of (updateStatus "starting" p2)).

(** What the browser can deliver to the page. *)
Inductive BrowserEvent : Type :=
| ClickStart
| StartResponse
| StartFailure
| Tick (loop : nat)
| StateResponse (loop : nat) (data : Snapshot)
| StateFailure (loop : nat)
| EventsResponse (loop : nat) (events : list ServerEvent)
| EventsFailure (loop : nat)
| SocketChat (sender message : string)
| SocketStatus (status : string)
| SocketTeleport (data : Teleport).

Definition handle (p : Page) (e : BrowserEvent) : Page :=
  match e with
  | ClickStart => startSimulation p
  | StartResponse => pollEvents p
  | StartFailure =>
      set_startButton (mkButton false "Start Simulation")
                      (page_of (updateStatus "error" p))
  | Tick loop => on_tick loop p
  | StateResponse loop data => on_state loop data p
  | StateFailure _ => p
  | EventsResponse _ events => on_events events p
  | EventsFailure _ => p
  | SocketChat sender message => addChatMessage sender message p
  | SocketStatus status_ => page_of (updateStatus status_ p)
  | SocketTeleport data => page_of (on_teleport data p)
  end.

Definition deliver (events : list BrowserEvent) (p : Page) : Page :=
  foldl handle p events.

(** The requests a given polling loop has issued. *)
Definition requests_of (loop : nat) (p : Page) : list (option nat * string) :=
  filter (λ r, r.1 = Some loop) (requests (poller p)).

(** The labels shown after each of a sequence of status updates. *)
Fixpoint labels_through (statuses : list string) (p : Page) : list string :=
  match statuses with
  | [] => []
  | s :: rest =>
      let p' := page_of (updateStatus s p) in
      textContent (statusIndicator p') :: labels_through rest p'
  end.

(** The part of the page a teleport is displayed in. *)
Definition teleport_display (p : Page) : RegionInfo * Marks :=
  (region p, marks p).

End Handlers.

(** A page for the examples below: the display as [clearDisplay] leaves it,
    an idle status indicator, no timer running. *)
Definition example_page : Page :=
  mkPage (mkIndicator "status-idle" "Idle")
         (mkSession "Not logged in" "" "")
         (mkRegionInfo "Not connected" "Position: 0, 0, 0")
         (mkMarks "50%" "40%" "50%" "50%")
         [] [] (mkButton false "Start Simulation")
         (mkPoller ∅ 1 []).

End Main.

(** Stand-ins for [Math.sin] and [Math.cos] in the examples below. *)
Definition example_sin (a : float) : float := (a * 0.5)%float.
Definition example_cos (a : float) : float := (1 - a * 0.25)%float.

(** A number printer for the examples below: on integer-valued numbers of
    moderate size it produces what the engine prints. *)
Definition print_integer (x : float) : string := pretty (JS.floorZ x).

(** ** object.js: lookup by id *)

(** [getObjectById]: [find] returns the first record with the id, or
    undefined. *)
Definition getObjectById (id : Z) (w : World) : option ObjectData :=
  snd <$> list_find (λ o, od_id o = id) (om_objects w).

(** The operations that create an object. *)
Definition is_create (o : Op) : bool :=
  match o with
  | CreateFromUI _ | PlaceFromInventory _ _ => true
  | _ => false
  end.

(** The selected mesh, if it exists, carries a saved emissive. *)
Definition saved_defined (w : World) : Prop :=
  ∀ a m, selectedObject w = Some a → heap w !! a = Some m →
         is_Some (currentHex m).

(** The object types [createObject] has a geometry for. *)
Definition known_type (type : string) : Prop :=
  type = "box" ∨ type = "sphere" ∨ type = "cylinder" ∨ type = "prism"
  ∨ type = "torus".

(** A world with a mesh whose material glows, for the examples below. *)
Definition glowing_world : World :=
  mkWorld {[ 0%nat := set_emissive 0x112233
                        (mesh_of_data (mkObjectData 1 "box" vec3_zero vec3_zero
                                         vec3_one "#ffffff" 0 false false false)) ]}
          1 [0%nat] [0%nat] None true true [] [] 2 [].

(** ** main.js: what the events of the page write *)

Module Reconciler.
Import Main.

(** The log lines one event of the polled queue adds. *)
Definition event_lines (String_toLowerCase : string → string)
    (e : ServerEvent) : list (string * string) :=
  match e with
  | LogEvent message level => [(message, String_toLowerCase level)]
  | LoginEvent => [("Login successful", "info")]
  | LogoutEvent => [("Logged out", "info")]
  | ChatEvent | TeleportEvent | OtherEvent _ => []
  end.

(** The events whose handlers call [updateStatus], [updateRegionInfo]
    (or [clearDisplay]), and write the avatar and marker styles. *)
Definition writes_status (e : BrowserEvent) : bool :=
  match e with
  | ClickStart | StartFailure | SocketStatus _ => true
  | _ => false
  end.

Definition writes_region (e : BrowserEvent) : bool :=
  match e with
  | ClickStart | SocketTeleport _ => true
  | StateResponse _ data =>
      bool_decide (is_Some (truthy_string (current_region data)))
  | _ => false
  end.

Definition writes_marks (e : BrowserEvent) : bool :=
  match e with
  | ClickStart | SocketTeleport _ => true
  | _ => false
  end.

(** The two requests of one round of a polling loop. *)
Definition poll_pair (loop : nat) : list (option nat * string) :=
  [(Some loop, "/api/state"); (Some loop, "/api/events")].

Definition is_tick_of (loop : nat) (e : BrowserEvent) : bool :=
  match e with
  | Tick k => bool_decide (k = loop)
  | _ => false
  end.

(** The statuses [updateStatus] has a label for. *)
Definition known_status (s : string) : Prop :=
  s ∈ ["idle"; "starting"; "initializing"; "logging_in"; "logged_in";
       "in_world"; "logging_out"; "completed"; "error";
       "running_simulation_1"; "running_simulation_2";
       "running_simulation_3"].

End Reconciler.

(** ** inventory.js: InventoryManager *)

Module Inventory.

Record Item : Type := mkItem {
  it_id : Z;
  it_name : string;
  it_type : string;
  it_description : string
}.

Record Folder : Type := mkFolder {
  folder_name : string;
  items : list Item
}.

(** [this.folders] is an object used as a map from folder ids to folders.
    It is kept as the list of its entries in the order the keys were first
    assigned, which is the order [for ... in] visits them (the folder ids
    of the source are names, not array indices). *)
Record InventoryManager : Type := mkInventoryManager {
  currentFolder : string;
  folders : list (string * Folder)
}.

(** The names every object inherits from [Object.prototype]:
    [this.folders[k]] is truthy for them although no folder is stored under
    [k], and an assignment to [__proto__] stores no property. *)
Definition Object_prototype_keys : list string :=
  ["constructor"; "hasOwnProperty"; "isPrototypeOf"; "propertyIsEnumerable";
   "toLocaleString"; "toString"; "valueOf"; "__proto__"; "__defineGetter__";
   "__defineSetter__"; "__lookupGetter__"; "__lookupSetter__"].

Definition inherited_key (k : string) : bool :=
  existsb (String.eqb k) Object_prototype_keys.

(** A key that starts with a digit may be an array index, which
    [for ... in] visits before the names. *)
Definition index_like (k : string) : bool :=
  match k with
  | String c _ =>
      ((48 <=? nat_of_ascii c) && (nat_of_ascii c <=? 57))%nat
  | EmptyString => false
  end.

(** The folder ids the operations below are modelled for, where a lookup
    finds what was stored under the id and nothing else. The ids the program
    passes are of this kind: ["root"], the demo folders, ["folder_<time>"]
    and the values of the dropdown's options. *)
Definition plain_key (k : string) : bool :=
  negb (inherited_key k) && negb (index_like k).

(** [this.folders[id]], for a plain key. *)
Fixpoint get_folder (id : string) (fs : list (string * Folder))
  : option Folder :=
  match fs with
  | [] => None
  | (k, v) :: rest => if decide (k = id) then Some v else get_folder id rest
  end.

(** [this.folders[id] = folder]: an existing key keeps its place. *)
Fixpoint set_folder (id : string) (folder : Folder)
    (fs : list (string * Folder)) : list (string * Folder) :=
  match fs with
  | [] => [(id, folder)]
  | (k, v) :: rest =>
      if decide (k = id) then (k, folder) :: rest
      else (k, v) :: set_folder id folder rest
  end.

Definition addFolder (id name : string) (s : InventoryManager)
  : InventoryManager :=
  mkInventoryManager (currentFolder s)
                     (set_folder id (mkFolder name []) (folders s)).

(** [addItem]: the item is pushed onto the folder's array, if the folder
    exists. *)
Definition addItem (folderId : string) (item : Item) (s : InventoryManager)
  : InventoryManager :=
  match get_folder folderId (folders s) with
  | Some folder =>
      mkInventoryManager
        (currentFolder s)
        (set_folder folderId
                    (mkFolder (folder_name folder) (items folder ++ [item]))
                    (folders s))
  | None => s
  end.

Definition switchFolder (folderId : string) (s : InventoryManager)
  : InventoryManager :=
  match get_folder folderId (folders s) with
  | Some _ => mkInventoryManager folderId (folders s)
  | None => s
  end.

(** [getItemById]: the folders are visited in order, and the first item
    with the id in the first folder that has one is returned. *)
Fixpoint find_item (id : Z) (fs : list (string * Folder)) : option Item :=
  match fs with
  | [] => None
  | (_, folder) :: rest =>
      match list_find (λ item, it_id item = id) (items folder) with
      | Some (_, item) => Some item
      | None => find_item id rest
      end
  end.

Definition getItemById (id : Z) (s : InventoryManager) : option Item :=
  find_item id (folders s).

(** The constructor, with [initializeDemoInventory]. *)
Definition demo_inventory : InventoryManager :=
  let s := mkInventoryManager "root" [("root", mkFolder "My Inventory" [])] in
  let s := addFolder "clothing" "Clothing" s in
  let s := addFolder "objects" "Objects" s in
  let s := addFolder "textures" "Textures" s in
  let s := addItem "root" (mkItem 1 "Box" "object" "A simple box") s in
  let s := addItem "root" (mkItem 2 "Sphere" "object" "A simple sphere") s in
  let s := addItem "clothing" (mkItem 3 "Blue Shirt" "clothing" "A blue shirt") s in
  let s := addItem "clothing" (mkItem 4 "Black Pants" "clothing" "Black pants") s in
  let s := addItem "objects" (mkItem 5 "Chair" "object" "A wooden chair") s in
  let s := addItem "objects" (mkItem 6 "Table" "object" "A wooden table") s in
  let s := addItem "textures" (mkItem 7 "Wood" "texture" "Wood texture") s in
  addItem "textures" (mkItem 8 "Metal" "texture" "Metal texture") s.

Inductive InventoryOp : Type :=
| AddFolder (id name : string)
| AddItem (folderId : string) (item : Item)
| SwitchFolder (folderId : string).

Definition apply_op (s : InventoryManager) (o : InventoryOp)
  : InventoryManager :=
  match o with
  | AddFolder id name => addFolder id name s
  | AddItem folderId item => addItem folderId item s
  | SwitchFolder folderId => switchFolder folderId s
  end.

Definition op_key (o : InventoryOp) : string :=
  match o with
  | AddFolder id _ => id
  | AddItem folderId _ => folderId
  | SwitchFolder folderId => folderId
  end.

Definition all_items (s : InventoryManager) : list Item :=
  folders s ≫= (λ kv, items kv.2).

(** *** Dropping an item on the 3D scene *)

(** The managers a drop can reach: the object manager with its scene, and
    the avatar manager with the avatar it has built. *)
Record Viewer : Type := mkViewer {
  world : World;
  avatarManager : Avatar.AvatarManager;
  avatar : list Avatar.Part
}.

Definition random_colour (random : float) : string :=
  "#" +:+ JS.toString16 (JS.floorZ (random * 16777215)%float).

(** [handleObjectDrop] of the inventory manager. *)
Definition dropObject (item : Item) (random : float) (v : Viewer) : Viewer :=
  mkViewer (handleObjectDrop (mkInventoryItem (it_name item) (it_type item))
                             random (world v))
           (avatarManager v) (avatar v).

(** [handleClothingDrop]: [random1] and [random2] are the two values
    [Math.random()] returns, in that order. *)
Definition handleClothingDrop (item : Item) (random1 random2 : float)
    (v : Viewer) : Viewer :=
  let appearance :=
    Avatar.mkAppearance None None None None None (Some "casual")
                        (Some (random_colour random1))
                        (Some (random_colour random2)) in
  let '(a, parts) := Avatar.updateAppearance appearance (avatarManager v) in
  mkViewer (addLogEntry ("Wearing " +:+ it_name item +:+ " from inventory")
                        "info" (world v))
           a parts.

(** The [drop] listener. [data] is the item carried by the drag, [None]
    when the drag carries no item. *)
Definition on_drop (data : option Item) (random1 random2 : float)
    (v : Viewer) : Viewer :=
  match data with
  | None => v
  | Some item =>
      if decide (it_type item = "object" ∨ it_type item = "texture")
      then dropObject item random1 v
      else if decide (it_type item = "clothing")
      then handleClothingDrop item random1 random2 v
      else v
  end.

End Inventory.

(** * Properties *)

(** ** main.js *)

Module MainFacts.
Import Main.

(** C5, as the code has it. Feeding idle, starting, logging_in, logged_in,
    in_world, logging_out and completed, in that order, to [updateStatus]
    takes the status label through Idle, Starting..., Logging in...,
    Logged in, In World, Logging out..., Completed, whatever the page showed
    before. The three labels in progress end in three full stops, not in
    the ellipsis character. *)
Theorem status_sequence_labels (p : Page) :
  labels_through
    ["idle"; "starting"; "logging_in"; "logged_in"; "in_world";
     "logging_out"; "completed"] p
  = ["Idle"; "Starting..."; "Logging in..."; "Logged in"; "In World";
     "Logging out..."; "Completed"].
Proof. reflexivity. Qed.

Section HandlerFacts.

Variable Number_toString : float -> string.
Variable String_toLowerCase : string -> string.

(** C6. A teleport event with a region and a three-component position,
    applied a second time, leaves the region name, the position text, the
    avatar's screen position and the minimap marker as the first application
    left them; the second application runs to its end and its only effect
    is one more copy of the log line. *)
Theorem teleport_idempotent (r : option string) (x y z : float) (p : Page) :
  ∃ (once twice : Page) (line : string * string),
    on_teleport Number_toString (mkTeleport r (Some [x; y; z])) p = Done once ∧
    on_teleport Number_toString (mkTeleport r (Some [x; y; z])) once
      = Done twice ∧
    teleport_display twice = teleport_display once ∧
    systemLog once = systemLog p ++ [line] ∧
    twice = addLogEntry line.1 line.2 once.
Proof.
  eexists _, _, (_, _). repeat split.
Qed.

(** C9, as the code has it. A snapshot with a region name and without a
    three-component position makes the handler write the region name and
    reset the position text to "Position: 0, 0, 0". *)
Theorem snapshot_without_position_resets
    (loop : nat) (data : Snapshot) (p : Page) (r : string) :
  truthy_string (current_region data) = Some r →
  (∀ a b c, position data ≠ Some [a; b; c]) →
  region (on_state Number_toString loop data p)
  = mkRegionInfo r "Position: 0, 0, 0".
Proof.
  intros Hr Hpos. unfold Main.on_state. rewrite Hr.
  unfold updateRegionInfo. cbn [region set_region].
  assert (truthy_string (Some r) = Some r) as ->.
  { destruct (current_region data) as [[|c s]|]; simpl in Hr; try discriminate.
    by inversion Hr. }
  destruct (position data) as [[|a [|b [|c [|e l]]]]|]; try reflexivity.
  by destruct (Hpos a b c).
Qed.

(** The handlers that leave the timers alone. *)
Lemma poller_updateStatus (s : string) (p : Page) :
  poller (page_of (updateStatus s p)) = poller p.
Proof. unfold updateStatus. by destruct (has_whitespace s). Qed.

Lemma poller_on_teleport (d : Teleport) (p : Page) :
  poller (page_of (on_teleport Number_toString d p)) = poller p.
Proof. unfold Main.on_teleport. by destruct (tp_position d). Qed.

Lemma poller_processEvent (e : ServerEvent) (p : Page) :
  poller (processEvent String_toLowerCase e p) = poller p.
Proof. by destruct e. Qed.

Lemma poller_on_events (events : list ServerEvent) (p : Page) :
  poller (on_events String_toLowerCase events p) = poller p.
Proof.
  revert p. induction events as [|e events IH]; intros p; [done|].
  cbn. unfold on_events in IH. by rewrite IH, poller_processEvent.
Qed.

Lemma poller_on_state (loop : nat) (data : Snapshot) (p : Page) :
  poller (on_state Number_toString loop data p)
  = if decide (terminal (status data))
    then mkPoller (intervals (poller p) ∖ {[loop]}) (next_interval (poller p))
                  (requests (poller p))
    else poller p.
Proof.
  unfold Main.on_state.
  destruct (truthy_string (current_region data));
    destruct (logged_in data), (user data), (decide (terminal (status data)));
    reflexivity.
Qed.

Lemma poller_handle (e : BrowserEvent) (p : Page) :
  poller (handle Number_toString String_toLowerCase p e)
  = match e with
    | ClickStart => poller (fetch None "/api/start" p)
    | StartResponse => poller (pollEvents p)
    | Tick loop => poller (on_tick loop p)
    | StateResponse loop data => poller (on_state Number_toString loop data p)
    | _ => poller p
    end.
Proof.
  destruct e; cbn [Main.handle]; try reflexivity;
    first [ apply poller_on_events
          | apply poller_updateStatus
          | apply poller_on_teleport ].
Qed.

(** A cleared timer stays cleared and issues nothing, whatever arrives. *)
Lemma cleared_loop_handle (loop : nat) (e : BrowserEvent) (p : Page) :
  loop ∉ intervals (poller p) →
  (loop < next_interval (poller p))%nat →
  (loop ∉ intervals
            (poller (handle Number_toString String_toLowerCase p e))) ∧
  (loop < next_interval
            (poller (handle Number_toString String_toLowerCase p e)))%nat ∧
  requests_of loop (handle Number_toString String_toLowerCase p e)
  = requests_of loop p.
Proof.
  intros Hout Hlt. unfold requests_of. rewrite poller_handle.
  destruct e as [| | |k|k data| | | | | |]; cbn [fetch pollEvents poller set_poller
    intervals next_interval requests]; auto.
  - rewrite filter_app, filter_cons_False, filter_nil, app_nil_r by done. auto.
  - repeat split; [|lia].
    rewrite elem_of_union, elem_of_singleton. intros [->|Hin]; [lia | done].
  - unfold on_tick. case_decide as Hk; [|auto].
    cbn [fetch poller set_poller intervals next_interval requests].
    assert (k ≠ loop) by (intros ->; done).
    rewrite !filter_app, !filter_cons_False, filter_nil, !app_nil_r
      by (cbn; congruence).
    auto.
  - rewrite poller_on_state. case_decide; [|auto].
    cbn [intervals next_interval requests]. repeat split; [|lia].
    rewrite elem_of_difference. by intros [Hin _].
Qed.

Lemma cleared_loop_deliver (loop : nat) (events : list BrowserEvent) (p : Page) :
  loop ∉ intervals (poller p) →
  (loop < next_interval (poller p))%nat →
  requests_of loop (deliver Number_toString String_toLowerCase events p)
  = requests_of loop p.
Proof.
  revert p. induction events as [|e events IH]; intros p Hout Hlt; [done|].
  destruct (cleared_loop_handle loop e p Hout Hlt) as (Hout' & Hlt' & Hreq).
  cbn. unfold Main.deliver in IH. by rewrite IH, Hreq.
Qed.

(** C7. Take a polling loop that has been started. Handling a snapshot of
    that loop whose status is completed or error clears the loop's timer, and
    from then on no event whatsoever makes the loop issue another request.
    No other event clears the timer: the loop stays active across every event
    that is not a terminal snapshot of its own. *)
Theorem polling_stops_exactly_on_terminal (loop : nat) (p : Page) :
  (loop < next_interval (poller p))%nat →
  (∀ data, terminal (status data) →
     (loop ∉ intervals (poller (on_state Number_toString loop data p))) ∧
     ∀ events,
       requests_of loop
         (deliver Number_toString String_toLowerCase events
                  (on_state Number_toString loop data p))
       = requests_of loop (on_state Number_toString loop data p)) ∧
  (∀ e, loop ∈ intervals (poller p) →
     (∀ data, e = StateResponse loop data → ¬ terminal (status data)) →
     loop ∈ intervals
              (poller (handle Number_toString String_toLowerCase p e))).
Proof.
  intros Hlt. split.
  - intros data Hterm.
    assert (loop ∉ intervals (poller (on_state Number_toString loop data p)))
      as Hout.
    { rewrite poller_on_state, decide_True by done. cbn [intervals].
      rewrite elem_of_difference, elem_of_singleton. by intros [_ Hne]. }
    split; [done|]. intros events. apply cleared_loop_deliver; [done|].
    rewrite poller_on_state. by case_decide.
  - intros e Hin Hne. rewrite poller_handle.
    destruct e as [| | |k|k data| | | | | |]; cbn [fetch pollEvents poller
      set_poller intervals next_interval requests]; auto.
    + apply elem_of_union. by right.
    + unfold on_tick. by case_decide.
    + rewrite poller_on_state. case_decide as Hterm; [|done].
      cbn [intervals]. assert (k ≠ loop) by (intros ->; by eapply Hne).
      rewrite elem_of_difference, elem_of_singleton. split; [done | congruence].
Qed.

End HandlerFacts.

(** C5 as stated fails: the labels of the statuses starting, logging_in and
    logging_out end in three full stops, where the stated sequence has the
    ellipsis character (U+2026). Fed the seven statuses, the label does not
    go through the stated sequence; for the status starting it is
    "Starting...". *)
Lemma status_sequence_labels_counterexample :
  labels_through
    ["idle"; "starting"; "logging_in"; "logged_in"; "in_world";
     "logging_out"; "completed"] example_page
  ≠ ["Idle"; "Starting…"; "Logging in…"; "Logged in"; "In World";
     "Logging out…"; "Completed"] ∧
  labels_through ["starting"] example_page = ["Starting..."] ∧
  labels_through ["starting"] example_page ≠ ["Starting…"].
Proof. split; [discriminate|]. split; [reflexivity | discriminate]. Qed.

(** C9 as stated fails: a page showing "Position: 10, 20, 30" after a
    teleport shows "Position: 0, 0, 0" once a snapshot with a region name and
    no position has been handled. *)
Lemma snapshot_without_position_counterexample :
  let p := page_of (on_teleport print_integer
                      (mkTeleport (Some "Plaza") (Some [10; 20; 30]%float))
                      example_page) in
  let data := mkSnapshot "in_world" true (Some (mkUser "Ann" "7"))
                         (Some "Plaza") None in
  regionPosition (region p) = "Position: 10, 20, 30" ∧
  regionPosition (region (on_state print_integer 1 data p))
    ≠ regionPosition (region p).
Proof. split; [reflexivity | discriminate]. Qed.

Lemma snapshot_without_position_resets_witness :
  region (on_state print_integer 1
            (mkSnapshot "in_world" true (Some (mkUser "Ann" "7"))
                        (Some "Plaza") None)
            example_page)
  = mkRegionInfo "Plaza" "Position: 0, 0, 0".
Proof.
  apply snapshot_without_position_resets; [reflexivity | discriminate].
Defined.

Lemma polling_stops_exactly_on_terminal_witness :
  (1 < next_interval (poller (pollEvents example_page)))%nat ∧
  ((∀ data, terminal (status data) →
      (1%nat ∉ intervals (poller (on_state print_integer 1 data
                                    (pollEvents example_page)))) ∧
      ∀ events,
        requests_of 1 (deliver print_integer id events
                         (on_state print_integer 1 data (pollEvents example_page)))
        = requests_of 1 (on_state print_integer 1 data (pollEvents example_page))) ∧
   (∀ e, 1%nat ∈ intervals (poller (pollEvents example_page)) →
      (∀ data, e = StateResponse 1 data → ¬ terminal (status data)) →
      1%nat ∈ intervals (poller (handle print_integer id (pollEvents example_page) e)))).
Proof.
  assert (1 < next_interval (poller (pollEvents example_page)))%nat as Hlt
    by (cbn; lia).
  split; [exact Hlt|].
  exact (polling_stops_exactly_on_terminal print_integer id 1
           (pollEvents example_page) Hlt).
Defined.

End MainFacts.

(** ** scene.js: terrain heights *)

Section TerrainFacts.

Variables Math_sin Math_cos : float -> float.

Lemma read_insert_ne (vertices : list float) (i p : nat) (v : float) :
  i ≠ p → Terrain.read (<[i := v]> vertices) p = Terrain.read vertices p.
Proof. intros Hne. unfold Terrain.read. by rewrite list_lookup_insert_ne. Qed.

Lemma height_loop_length (fuel : nat) (maxHeight : float) (i : nat)
    (vertices : list float) :
  length (Terrain.height_loop Math_sin Math_cos fuel maxHeight i vertices)
  = length vertices.
Proof.
  revert i vertices. induction fuel as [|fuel IH]; intros i vertices; [done|].
  cbn. case_decide; [|done]. by rewrite IH, length_insert.
Qed.

(** The loop started at vertex [j] writes y slots of vertices from [j] on,
    and nothing else. *)
Lemma height_loop_untouched (fuel : nat) (maxHeight : float) (j : nat)
    (vertices : list float) (p : nat) :
  (p mod 3 ≠ 1 ∨ p < 3 * j)%nat →
  Terrain.height_loop Math_sin Math_cos fuel maxHeight (3 * j) vertices !! p
  = vertices !! p.
Proof.
  revert j vertices. induction fuel as [|fuel IH]; intros j vertices Hp; [done|].
  cbn [Terrain.height_loop]. case_decide; [|done].
  replace (3 * j + 3)%nat with (3 * S j)%nat by lia.
  rewrite IH by lia. apply list_lookup_insert_ne.
  intros Heq. destruct Hp as [Hp|Hp]; [|lia].
  apply Hp. rewrite <- Heq.
  replace (3 * j + 1)%nat with (1 + j * 3)%nat by lia.
  by rewrite Nat.Div0.mod_add.
Qed.

Lemma height_loop_written (fuel : nat) (maxHeight : float) (j : nat)
    (vertices : list float) (k : nat) :
  (j ≤ k < j + fuel)%nat →
  (3 * k + 1 < length vertices)%nat →
  Terrain.height_loop Math_sin Math_cos fuel maxHeight (3 * j) vertices
    !! (3 * k + 1)%nat
  = Some (JS.fround
            (Terrain.vertex_height Math_sin Math_cos maxHeight
               (Terrain.read vertices (3 * k))
               (Terrain.read vertices (3 * k + 2)))).
Proof.
  revert j vertices. induction fuel as [|fuel IH]; intros j vertices Hk Hlen;
    [lia|].
  cbn [Terrain.height_loop]. case_decide; [|lia].
  replace (3 * j + 3)%nat with (3 * S j)%nat by lia.
  destruct (decide (k = j)) as [->|Hne].
  - rewrite height_loop_untouched by lia.
    by rewrite list_lookup_insert_eq by lia.
  - rewrite IH by (rewrite ?length_insert; lia).
    by rewrite !read_insert_ne by lia.
Qed.

(** C4. For every vertex of the position array, [generateHeightMap] leaves
    x and z as they are and stores in the y slot the maximum height times
    the sum, accumulated from 0, of the three octaves
    noise(x*0.01, z*0.01)*0.6, noise(x*0.04, z*0.04)*0.3 and
    noise(x*0.1, z*0.1)*0.1; the position array being a [Float32Array], the
    slot holds that number rounded to single precision. The height depends
    on nothing but (x, z) and the maximum height: any vertex of any array
    with the same x and z gets the same height. *)
Theorem terrain_height_formula (maxHeight : float) (vertices : list float)
    (k : nat) (x y z : float) :
  vertices !! (3 * k)%nat = Some x →
  vertices !! (3 * k + 1)%nat = Some y →
  vertices !! (3 * k + 2)%nat = Some z →
  Terrain.generateHeightMap Math_sin Math_cos maxHeight vertices
    !! (3 * k)%nat = Some x ∧
  Terrain.generateHeightMap Math_sin Math_cos maxHeight vertices
    !! (3 * k + 2)%nat = Some z ∧
  Terrain.generateHeightMap Math_sin Math_cos maxHeight vertices
    !! (3 * k + 1)%nat
  = Some (JS.fround
            ((0 + Terrain.noise2D Math_sin Math_cos (x * 0.01) (z * 0.01) * 0.6
                + Terrain.noise2D Math_sin Math_cos (x * 0.04) (z * 0.04) * 0.3
                + Terrain.noise2D Math_sin Math_cos (x * 0.1) (z * 0.1) * 0.1)
             * maxHeight)%float) ∧
  (∀ (vertices' : list float) (k' : nat) (y' : float),
     vertices' !! (3 * k')%nat = Some x →
     vertices' !! (3 * k' + 1)%nat = Some y' →
     vertices' !! (3 * k' + 2)%nat = Some z →
     Terrain.generateHeightMap Math_sin Math_cos maxHeight vertices'
       !! (3 * k' + 1)%nat
     = Terrain.generateHeightMap Math_sin Math_cos maxHeight vertices
         !! (3 * k + 1)%nat).
Proof.
  assert (∀ (vs : list float) (n : nat) (a b c : float),
            vs !! (3 * n)%nat = Some a → vs !! (3 * n + 1)%nat = Some b →
            vs !! (3 * n + 2)%nat = Some c →
            Terrain.generateHeightMap Math_sin Math_cos maxHeight vs
              !! (3 * n + 1)%nat
            = Some (JS.fround
                      (Terrain.vertex_height Math_sin Math_cos maxHeight a c)))
    as Hy.
  { intros vs n a b c Ha Hb Hc. unfold Terrain.generateHeightMap.
    pose proof (lookup_lt_Some _ _ _ Hb) as Hlt.
    rewrite (height_loop_written _ _ 0) by lia.
    unfold Terrain.read. by rewrite Ha, Hc. }
  intros Hx Hy0 Hz. unfold Terrain.generateHeightMap at 1 2.
  rewrite !(height_loop_untouched _ _ 0).
  - repeat split; [done | done | by eapply Hy |].
    intros vs' k' y' Hx' Hy' Hz'.
    by rewrite (Hy _ _ _ _ _ Hx' Hy' Hz'), (Hy _ _ _ _ _ Hx Hy0 Hz).
  - left. replace (3 * k + 2)%nat with (2 + k * 3)%nat by lia.
    by rewrite Nat.Div0.mod_add.
  - left. replace (3 * k)%nat with (0 + k * 3)%nat by lia.
    by rewrite Nat.Div0.mod_add.
Qed.

End TerrainFacts.

Lemma terrain_height_formula_witness :
  Terrain.generateHeightMap example_sin example_cos 10
                            [-50; 0; -50; 12.5; 0; 3]%float !! 4%nat
  = Some (JS.fround
            ((0 + Terrain.noise2D example_sin example_cos (12.5 * 0.01) (3 * 0.01) * 0.6
                + Terrain.noise2D example_sin example_cos (12.5 * 0.04) (3 * 0.04) * 0.3
                + Terrain.noise2D example_sin example_cos (12.5 * 0.1) (3 * 0.1) * 0.1)
             * 10)%float) ∧
  ((0 + Terrain.noise2D example_sin example_cos (12.5 * 0.01) (3 * 0.01) * 0.6
      + Terrain.noise2D example_sin example_cos (12.5 * 0.04) (3 * 0.04) * 0.3
      + Terrain.noise2D example_sin example_cos (12.5 * 0.1) (3 * 0.1) * 0.1)
   * 10)%float = 0.12374999999999999%float ∧
  JS.fround 0.12374999999999999 = 0.1237500011920929%float.
Proof.
  split; [|split; reflexivity].
  apply (terrain_height_formula example_sin example_cos 10
           [-50; 0; -50; 12.5; 0; 3]%float 1 12.5 0 3);
    reflexivity.
Defined.

(** ** scene.js: the avatar's fallbacks *)

Module AvatarFacts.
Import Avatar.

(** X16. An unrecognized body shape builds the athletic body. *)
Lemma unknown_bodyShape_is_athletic (a : AvatarManager) (s : string) :
  ¬ recognized_bodyShape s →
  createAvatar (with_bodyShape s a) = createAvatar (with_bodyShape "athletic" a).
Proof.
  intros Hs. unfold recognized_bodyShape in Hs.
  unfold createAvatar, createHead, createTorso, createArms, createLegs,
    torso_size, arm_thickness, leg_thickness.
  cbn [with_bodyShape bodyShape avatarHeight skinColor hairStyle hairColor
       outfitStyle outfitPrimaryColor outfitSecondaryColor].
  rewrite !(decide_False (P := s = "athletic")),
          !(decide_False (P := s = "slim")),
          !(decide_False (P := s = "heavy")) by tauto.
  reflexivity.
Qed.

(** X17. An unrecognized outfit style builds the casual torso. *)
Lemma unknown_outfitStyle_is_casual (a : AvatarManager) (s : string) :
  ¬ recognized_outfitStyle s →
  createAvatar (with_outfitStyle s a) = createAvatar (with_outfitStyle "casual" a).
Proof.
  intros Hs. unfold recognized_outfitStyle in Hs.
  unfold createAvatar, createHead, createTorso, createArms, createLegs,
    torso_material.
  cbn [with_outfitStyle bodyShape avatarHeight skinColor hairStyle hairColor
       outfitStyle outfitPrimaryColor outfitSecondaryColor].
  rewrite !(decide_False (P := s = "casual")),
          !(decide_False (P := s = "formal")),
          !(decide_False (P := s = "fantasy")) by tauto.
  reflexivity.
Qed.

(** An unrecognized hair style gets the geometry and the material of short
    hair, and no placement: the hair stays where a new mesh is. *)
Lemma unknown_hairStyle_hair (a : AvatarManager) (s : string) :
  ¬ recognized_hairStyle s →
  createAvatar (with_hairStyle s a) !! 1%nat
  = Some (mkPart (hair_geometry "short")
                 (MeshStandardMaterial (CssColor (hairColor a)) None)
                 vec3_zero vec3_zero true).
Proof.
  intros Hs. unfold recognized_hairStyle in Hs.
  unfold createAvatar, createHead, hair_placement, hair_geometry.
  cbn [with_hairStyle bodyShape avatarHeight skinColor hairStyle hairColor
       outfitStyle outfitPrimaryColor outfitSecondaryColor].
  rewrite !(decide_False (P := s = "short")),
          !(decide_False (P := s = "ponytail")),
          !(decide_False (P := s = "long")) by tauto.
  reflexivity.
Qed.

Lemma short_hairStyle_hair (a : AvatarManager) :
  createAvatar (with_hairStyle "short" a) !! 1%nat
  = Some (mkPart (hair_geometry "short")
                 (MeshStandardMaterial (CssColor (hairColor a)) None)
                 (mkVec3 0 (1.6 * avatarHeight a + 0.03) 0)
                 (mkVec3 JS.Math_PI 0 0) true).
Proof. reflexivity. Qed.

(** C8 at the hair style "mohawk", every other setting as the constructor
    leaves it. The avatar is built, and its hair has the geometry and the
    material of short hair, but it lies at the origin, unrotated, whereas the
    hair of the avatar built with "short" sits at height 1.6 * 1 + 0.03 and
    is turned by pi: the two avatars differ in the hair's placement. *)
Theorem unknown_hairStyle_misplaced :
  createAvatar (with_hairStyle "mohawk" default_settings) !! 1%nat
  = Some (mkPart (hair_geometry "short")
                 (MeshStandardMaterial (CssColor "#523b22") None)
                 vec3_zero vec3_zero true) ∧
  createAvatar (with_hairStyle "short" default_settings) !! 1%nat
  = Some (mkPart (hair_geometry "short")
                 (MeshStandardMaterial (CssColor "#523b22") None)
                 (mkVec3 0 (1.6 * 1 + 0.03) 0) (mkVec3 JS.Math_PI 0 0) true) ∧
  createAvatar (with_hairStyle "mohawk" default_settings)
  ≠ createAvatar (with_hairStyle "short" default_settings).
Proof.
  split; [|split].
  - apply unknown_hairStyle_hair. unfold recognized_hairStyle.
    intros [H|[H|H]]; discriminate.
  - reflexivity.
  - intros Heq.
    apply (f_equal (λ parts, (λ part, Prim2SF (vy (position part))) <$> parts !! 1%nat))
      in Heq.
    vm_compute in Heq. discriminate.
Qed.

End AvatarFacts.

(** ** scene.js and object.js: selection and the registry *)

Section WorldFacts.

Implicit Types (w : World) (r a b : nat) (m : Mesh) (d : ObjectData).

(** *** Arrays searched by [indexOf] and [findIndex] *)

Lemma indexOf_NoDup (l : list nat) (i r : nat) :
  NoDup l → l !! i = Some r → indexOf r l = Some i.
Proof.
  intros Hnd Hi. unfold indexOf.
  assert (list_find (λ x, x = r) l = Some (i, r)) as ->; [|done].
  apply list_find_Some. repeat split; [done|].
  intros j y Hj Hlt ->. pose proof (NoDup_lookup _ _ _ _ Hnd Hi Hj). lia.
Qed.

Lemma findIndex_id_NoDup (l : list ObjectData) (i : nat) d :
  NoDup (od_id <$> l) → l !! i = Some d → findIndex_id (od_id d) l = Some i.
Proof.
  intros Hnd Hi. unfold findIndex_id.
  assert (list_find (λ o, od_id o = od_id d) l = Some (i, d)) as ->; [|done].
  apply list_find_Some. repeat split; [done|].
  intros j y Hj Hlt Heq.
  assert ((od_id <$> l) !! i = Some (od_id d)) as Hi'
    by (by rewrite list_lookup_fmap, Hi).
  assert ((od_id <$> l) !! j = Some (od_id d)) as Hj'
    by (by rewrite list_lookup_fmap, Hj; cbn; rewrite Heq).
  pose proof (NoDup_lookup _ _ _ _ Hnd Hi' Hj'). lia.
Qed.

Lemma NoDup_delete_lookup {A : Type} (l : list A) (i : nat) (x : A) :
  NoDup l → l !! i = Some x → NoDup (delete i l) ∧ x ∉ delete i l.
Proof.
  intros Hnd Hi. split; [by eapply sublist_NoDup, sublist_delete|].
  rewrite delete_take_drop. rewrite <- (take_drop_middle l i x Hi) in Hnd.
  apply NoDup_app in Hnd as (_ & Hout & Hnd).
  apply NoDup_cons in Hnd as [Hx _].
  intros [Hin|Hin]%elem_of_app; [|done].
  by apply (Hout x Hin), list_elem_of_here.
Qed.

(** *** What the selection operations do to the heap *)

Lemma heap_selectObject w b r :
  heap (selectObject b w) !! r = select_mesh w b r <$> heap w !! r.
Proof.
  unfold selectObject, select_mesh, restore_highlight, restore_mesh.
  destruct (selectedObject w) as [a|]; cbn [heap with_heap with_selection
    with_buttons dispatchEvent]; rewrite !lookup_alter;
    repeat case_decide; simplify_eq; by destruct (heap w !! r).
Qed.

Lemma heap_deselectObject w r :
  heap (deselectObject w) !! r
  = (λ m, if decide (selectedObject w = Some r) then restore_mesh m else m)
      <$> heap w !! r.
Proof.
  unfold deselectObject, restore_highlight, restore_mesh.
  destruct (selectedObject w) as [a|]; cbn [heap with_heap with_selection
    with_buttons dispatchEvent]; rewrite ?lookup_alter;
    repeat case_decide; simplify_eq; by destruct (heap w !! r).
Qed.

Lemma selectObject_frame w b :
  sm_objects (selectObject b w) = sm_objects w ∧
  scene_children (selectObject b w) = scene_children w ∧
  om_objects (selectObject b w) = om_objects w ∧
  nextObjectId (selectObject b w) = nextObjectId w ∧
  next_ref (selectObject b w) = next_ref w ∧
  selectedObject (selectObject b w) = Some b ∧
  dispatched (selectObject b w) = dispatched w ++ [objectSelected b].
Proof. unfold selectObject. destruct (selectedObject w); repeat split. Qed.

Lemma deselectObject_frame w :
  sm_objects (deselectObject w) = sm_objects w ∧
  scene_children (deselectObject w) = scene_children w ∧
  om_objects (deselectObject w) = om_objects w ∧
  nextObjectId (deselectObject w) = nextObjectId w ∧
  next_ref (deselectObject w) = next_ref w ∧
  selectedObject (deselectObject w) = None.
Proof. unfold deselectObject. destruct (selectedObject w) eqn:E; repeat split; done. Qed.

(** *** Correspondence is insensitive to the highlight *)

Lemma agrees_set_emissive (h : Z) m d : agrees m d → agrees (set_emissive h m) d.
Proof. done. Qed.

Lemma agrees_set_currentHex (h : option Z) m d :
  agrees m d → agrees (set_currentHex h m) d.
Proof. done. Qed.

Lemma agrees_select_mesh w b r m d : agrees m d → agrees (select_mesh w b r m) d.
Proof.
  intros H. unfold select_mesh, restore_mesh.
  repeat case_decide; auto using agrees_set_emissive, agrees_set_currentHex.
Qed.

Lemma corresponds_heap w w' (f : nat → Mesh → Mesh) :
  sm_objects w' = sm_objects w →
  om_objects w' = om_objects w →
  (∀ r, heap w' !! r = f r <$> heap w !! r) →
  (∀ r m d, agrees m d → agrees (f r m) d) →
  corresponds w → corresponds w'.
Proof.
  unfold corresponds. intros -> -> Hheap Hf Hc.
  eapply Forall2_impl; [exact Hc|].
  intros r d (m & Hm & Ha). exists (f r m). split; [|by apply Hf].
  by rewrite Hheap, Hm.
Qed.

(** *** The invariant is kept by every operation *)

Lemma inv_addLogEntry (message level : string) w :
  world_inv w → world_inv (addLogEntry message level w).
Proof. intros []. by constructor. Qed.

Lemma inv_initial (buttons_disabled : bool) :
  world_inv (initial_world buttons_disabled).
Proof.
  constructor; cbn; try done; by constructor.
Qed.

Lemma emissive_select_mesh w b r m :
  (if decide (selectedObject w = Some r)
   then emissive (material m) = highlightHex
        ∧ currentHex m = Some defaultEmissiveHex
   else emissive (material m) = defaultEmissiveHex) →
  if decide (Some b = Some r)
  then emissive (material (select_mesh w b r m)) = highlightHex
       ∧ currentHex (select_mesh w b r m) = Some defaultEmissiveHex
  else emissive (material (select_mesh w b r m)) = defaultEmissiveHex.
Proof.
  unfold select_mesh, restore_mesh.
  destruct (decide (selectedObject w = Some r)) as [Hs|Hs];
    destruct (decide (b = r)) as [->|Hb];
    rewrite ?decide_True by done;
    rewrite ?(decide_False (P := Some b = Some r)) by congruence;
    cbn.
  - intros [_ ->]. done.
  - intros [_ ->]. done.
  - intros ->. done.
  - done.
Qed.

Lemma inv_selectObject w b :
  world_inv w → b ∈ sm_objects w → world_inv (selectObject b w).
Proof.
  intros [Hc Hnd Hbd Hrnd Hrbd Hch Hsel Hem] Hb.
  destruct (selectObject_frame w b) as (Eo & Ech & Er & Eid & Enr & Es & _).
  constructor; unfold record_ids; rewrite ?Eo, ?Ech, ?Er, ?Eid, ?Enr, ?Es; try done.
  - eapply (corresponds_heap w _ (select_mesh w b)); try done.
    + apply heap_selectObject.
    + intros r m d. apply agrees_select_mesh.
  - by intros r [= <-].
  - intros r m Hr. rewrite heap_selectObject.
    destruct (heap w !! r) as [m0|] eqn:E; [|done]. intros [= <-].
    apply emissive_select_mesh, Hem; done.
Qed.

Lemma inv_deselectObject w : world_inv w → world_inv (deselectObject w).
Proof.
  intros [Hc Hnd Hbd Hrnd Hrbd Hch Hsel Hem].
  destruct (deselectObject_frame w) as (Eo & Ech & Er & Eid & Enr & Es).
  constructor; unfold record_ids; rewrite ?Eo, ?Ech, ?Er, ?Eid, ?Enr, ?Es; try done.
  - eapply (corresponds_heap w _
              (λ r m, if decide (selectedObject w = Some r)
                      then restore_mesh m else m)); try done.
    + apply heap_deselectObject.
    + intros r m d Ha. case_decide; [by apply agrees_set_emissive | done].
  - intros r m Hr. rewrite heap_deselectObject.
    destruct (heap w !! r) as [m0|] eqn:E; [|done]. intros [= <-].
    specialize (Hem r m0 Hr E). rewrite (decide_False (P := None = Some r)) by done.
    case_decide; [|done]. destruct Hem as [_ Hcur].
    unfold restore_mesh. by rewrite Hcur.
Qed.

Lemma inv_onMouseDown (hit : option nat) w :
  world_inv w → world_inv (onMouseDown hit w).
Proof.
  intros Hinv. unfold onMouseDown.
  destruct (hit ≫= (λ i, sm_objects w !! i)) as [b|] eqn:E.
  - apply inv_selectObject; [done|].
    destruct hit as [i|]; [|done]. cbn in E.
    apply list_elem_of_lookup. by exists i.
  - by apply inv_deselectObject.
Qed.

Lemma agrees_mesh_of_data d : agrees (mesh_of_data d) d.
Proof. by repeat split. Qed.

Lemma Forall2_impl_bounded {A B : Type} (P Q : A → B → Prop) (R : A → Prop)
    (l : list A) (k : list B) :
  Forall2 P l k → Forall R l → (∀ x y, R x → P x y → Q x y) → Forall2 Q l k.
Proof.
  intros HP HR Himp. induction HP as [|x y l k Hxy _ IH]; [constructor|].
  apply Forall_cons in HR as [Hx HR]. constructor; auto.
Qed.

(** The state after [createObject] and the push of the record. *)
Lemma inv_create d w :
  world_inv w → od_id d = nextObjectId w →
  world_inv (with_records (λ l, l ++ [d]) (createObject d (take_id w).2).2).
Proof.
  intros [Hc Hnd Hbd Hrnd Hrbd Hch Hsel Hem] Hid.
  constructor; unfold corresponds, record_ids; cbn.
  - apply Forall2_app.
    + eapply Forall2_impl_bounded; [exact Hc | exact Hrbd |].
      intros r d' Hr (m & Hm & Ha). exists m. split; [|done].
      cbn beta in Hr. rewrite lookup_insert_ne by lia. done.
    + constructor; [|constructor]. exists (mesh_of_data d).
      split; [by rewrite lookup_insert_eq | apply agrees_mesh_of_data].
  - rewrite fmap_app. apply NoDup_app.
    split; [done|]. split; [|apply NoDup_singleton].
    intros x Hx ->%list_elem_of_singleton.
    apply list_elem_of_fmap in Hx as (d' & Hd' & Hin).
    rewrite Forall_forall in Hbd. specialize (Hbd d' Hin). cbn beta in Hbd. lia.
  - apply Forall_app. split.
    + eapply Forall_impl; [exact Hbd|]. cbn. intros; lia.
    + constructor; [lia | constructor].
  - apply NoDup_app. split; [done|]. split; [|apply NoDup_singleton].
    intros x Hx ->%list_elem_of_singleton.
    rewrite Forall_forall in Hrbd. specialize (Hrbd _ Hx). cbn beta in Hrbd. lia.
  - apply Forall_app. split.
    + eapply Forall_impl; [exact Hrbd|]. cbn. intros; lia.
    + constructor; [lia | constructor].
  - by rewrite Hch.
  - intros r Hr. apply elem_of_app. left. by apply Hsel.
  - intros r m Hr Hm.
    assert (selectedObject w ≠ Some (next_ref w)) as Hfresh.
    { intros Hs. apply Hsel in Hs. rewrite Forall_forall in Hrbd.
      specialize (Hrbd _ Hs). cbn beta in Hrbd. lia. }
    destruct (decide (r = next_ref w)) as [->|Hne].
    + rewrite lookup_insert_eq in Hm. injection Hm as <-.
      by rewrite decide_False.
    + rewrite lookup_insert_ne in Hm by done.
      apply elem_of_app in Hr as [Hr|Hr%list_elem_of_singleton]; [|done].
      by apply Hem.
Qed.

Lemma inv_createObjectFromUI (f : BuildForm) w :
  world_inv w → world_inv (createObjectFromUI f w).
Proof.
  intros Hinv. unfold createObjectFromUI.
  apply inv_addLogEntry, (inv_create _ w Hinv). reflexivity.
Qed.

Lemma inv_handleObjectDrop (item : InventoryItem) (random : float) w :
  world_inv w → world_inv (handleObjectDrop item random w).
Proof.
  intros Hinv. unfold handleObjectDrop, loadObjectFromInventory.
  apply inv_addLogEntry, inv_addLogEntry, (inv_create _ w Hinv). reflexivity.
Qed.

(** The selected mesh and its record sit at the same position of the two
    arrays, and both searches find that position. *)
Lemma selected_position w a m :
  world_inv w → selectedObject w = Some a → heap w !! a = Some m →
  ∃ i d, sm_objects w !! i = Some a ∧ om_objects w !! i = Some d ∧
         agrees m d ∧
         indexOf a (sm_objects w) = Some i ∧
         findIndex_id (ud_id (userData m)) (om_objects w) = Some i.
Proof.
  intros [Hc Hnd Hbd Hrnd Hrbd Hch Hsel Hem] Hs Hm.
  apply Hsel, list_elem_of_lookup in Hs as [i Hi].
  destruct (Forall2_lookup_l _ _ _ _ _ Hc Hi) as (d & Hd & m' & Hm' & Ha).
  assert (m' = m) as -> by congruence.
  exists i, d. repeat split; try done; try apply Ha.
  - by apply indexOf_NoDup.
  - destruct Ha as [-> _]. by apply findIndex_id_NoDup.
Qed.

Lemma agrees_edit (f : BuildForm) m d :
  agrees m d → agrees (edit_mesh f m) (edit_data f d).
Proof. intros (?&?&?&?&?&?&?&?&?&?&?). by repeat split. Qed.

Lemma inv_editSelectedObject (f : BuildForm) w :
  world_inv w → world_inv (editSelectedObject f w).
Proof.
  intros Hinv. unfold editSelectedObject.
  destruct (selectedObject w) as [a|] eqn:Hs; [|done].
  destruct (heap w !! a) as [m|] eqn:Hm; [|done].
  destruct (selected_position w a m Hinv Hs Hm) as (i & d & Hi & Hd & Ha & _ & ->).
  apply inv_addLogEntry.
  destruct Hinv as [Hc Hnd Hbd Hrnd Hrbd Hch Hsel Hem].
  constructor; unfold corresponds, record_ids; cbn; try done.
  - apply Forall2_same_length_lookup. split.
    + rewrite length_alter. by eapply Forall2_length.
    + intros j r d' Hr Hd'. rewrite list_lookup_alter in Hd'.
      destruct (decide (i = j)) as [<-|Hne].
      * rewrite Hd in Hd'. injection Hd' as <-.
        assert (r = a) as -> by congruence.
        exists (edit_mesh f m). split; [|by apply agrees_edit].
        by rewrite lookup_alter_eq, Hm.
      * destruct (Forall2_lookup_lr _ _ _ _ _ _ Hc Hr Hd') as (m' & Hm' & Ha').
        exists m'. split; [|done]. rewrite lookup_alter_ne; [done|].
        intros <-. apply Hne. by eapply NoDup_lookup.
  - rewrite (list_fmap_alter od_id (edit_data f) (λ x, x)); [|by apply Forall_true].
    by rewrite list_alter_id.
  - apply Forall_alter; [done|]. by intros d' _.
  - intros r m' Hr. rewrite lookup_alter.
    destruct (decide (a = r)) as [<-|Hne]; [|by apply Hem].
    rewrite Hm. intros [= <-]. by apply (Hem a m).
Qed.

Lemma removeObject_selected w a i :
  world_inv w → selectedObject w = Some a → sm_objects w !! i = Some a →
  removeObject a w
  = with_buttons true
      (with_selection None
         (with_scene (delete i (scene_children w)) (delete i (sm_objects w)) w)).
Proof.
  intros [Hc Hnd Hbd Hrnd Hrbd Hch Hsel Hem] Hs Hi.
  unfold removeObject, remove_ref. rewrite Hch.
  rewrite (indexOf_NoDup _ i a) by done. cbn.
  by rewrite decide_True.
Qed.

Lemma inv_deleteSelectedObject w :
  world_inv w → world_inv (deleteSelectedObject w).
Proof.
  intros Hinv. unfold deleteSelectedObject.
  destruct (selectedObject w) as [a|] eqn:Hs; [|done].
  destruct (heap w !! a) as [m|] eqn:Hm; [|done].
  destruct (selected_position w a m Hinv Hs Hm) as (i & d & Hi & Hd & Ha & _ & Hfind).
  apply inv_addLogEntry.
  rewrite (removeObject_selected w a i) by done.
  cbn [om_objects with_buttons with_selection with_scene]. rewrite Hfind.
  destruct Hinv as [Hc Hnd Hbd Hrnd Hrbd Hch Hsel Hem].
  destruct (NoDup_delete_lookup _ _ _ Hrnd Hi) as [Hnd' Hout].
  constructor; unfold corresponds, record_ids; cbn; try done.
  - by apply Forall2_delete.
  - rewrite list_fmap_delete.
    eapply sublist_NoDup; [exact Hnd | apply sublist_delete].
  - by apply Forall_delete.
  - by apply Forall_delete.
  - by rewrite Hch.
  - intros r m' Hr Hm'.
    assert (r ≠ a) by (by intros ->).
    apply list_elem_of_delete_inv in Hr.
    specialize (Hem r m' Hr Hm'). rewrite decide_False in Hem by congruence.
    done.
Qed.

Lemma inv_step w (o : Op) : world_inv w → world_inv (step w o).
Proof.
  destruct o; cbn.
  - apply inv_createObjectFromUI.
  - apply inv_handleObjectDrop.
  - apply inv_editSelectedObject.
  - apply inv_deleteSelectedObject.
  - apply inv_onMouseDown.
Qed.

Lemma inv_run (ops : list Op) w : world_inv w → world_inv (run ops w).
Proof.
  revert w. induction ops as [|o ops IH]; intros w Hinv; [done|].
  cbn. apply IH, inv_step, Hinv.
Qed.

Lemma inv_reachable (buttons_disabled : bool) (ops : list Op) :
  world_inv (run ops (initial_world buttons_disabled)).
Proof. apply inv_run, inv_initial. Qed.

(** *** Consequences of the invariant *)

Lemma node_ids_corresponds w :
  corresponds w → node_ids w = Some <$> record_ids w.
Proof.
  unfold corresponds, node_ids, record_ids, node_id.
  induction 1 as [|r d l k (m & Hm & Ha) _ IH]; [done|].
  cbn. rewrite Hm, IH. cbn. by destruct Ha as [-> _].
Qed.

Lemma pickable_in_heap w r :
  world_inv w → r ∈ sm_objects w → is_Some (heap w !! r).
Proof.
  intros Hinv [i Hi]%list_elem_of_lookup.
  destruct (Forall2_lookup_l _ _ _ _ _ (inv_corresponds w Hinv) Hi)
    as (d & _ & m & Hm & _).
  by exists m.
Qed.

Lemma highlight_is_selection w r :
  world_inv w → r ∈ sm_objects w →
  (shown_emissive w r = Some highlightHex ↔ selectedObject w = Some r).
Proof.
  intros Hinv Hr. destruct (pickable_in_heap w r Hinv Hr) as [m Hm].
  pose proof (inv_emissive w Hinv r m Hr Hm) as Hem.
  unfold shown_emissive. rewrite Hm. cbn.
  destruct (decide (selectedObject w = Some r)) as [Hs|Hs].
  - destruct Hem as [-> _]. done.
  - rewrite Hem. split; [discriminate | done].
Qed.

Lemma unselected_shows_default w r :
  world_inv w → r ∈ sm_objects w → selectedObject w ≠ Some r →
  shown_emissive w r = Some defaultEmissiveHex.
Proof.
  intros Hinv Hr Hs. destruct (pickable_in_heap w r Hinv Hr) as [m Hm].
  pose proof (inv_emissive w Hinv r m Hr Hm) as Hem.
  rewrite decide_False in Hem by done.
  unfold shown_emissive. by rewrite Hm, <- Hem.
Qed.

Lemma selected_saves_default w r :
  world_inv w → selectedObject w = Some r →
  saved_emissive w r = Some defaultEmissiveHex.
Proof.
  intros Hinv Hs. pose proof (inv_selected w Hinv r Hs) as Hr.
  destruct (pickable_in_heap w r Hinv Hr) as [m Hm].
  pose proof (inv_emissive w Hinv r m Hr Hm) as Hem.
  rewrite decide_True in Hem by done.
  unfold saved_emissive. rewrite Hm. apply Hem.
Qed.

(** On any world in which the selected mesh has a saved value, a call of
    [selectObject] changes no mesh's underlying emissive. *)
Lemma selectObject_original w b r :
  (∀ a m, selectedObject w = Some a → heap w !! a = Some m →
          is_Some (currentHex m)) →
  original_emissive (selectObject b w) r = original_emissive w r.
Proof.
  intros Hsaved. unfold original_emissive, saved_emissive, shown_emissive.
  destruct (selectObject_frame w b) as (_ & _ & _ & _ & _ & -> & _).
  rewrite heap_selectObject.
  destruct (heap w !! r) as [m|] eqn:Hm; cbn; [|by repeat case_decide].
  unfold select_mesh, restore_mesh.
  destruct (decide (selectedObject w = Some r)) as [Hs|Hs].
  - destruct (Hsaved r m Hs Hm) as [c Hc]. rewrite Hc.
    destruct (decide (b = r)) as [->|Hb].
    + by rewrite decide_True.
    + by rewrite (decide_False (P := Some b = Some r)) by congruence.
  - destruct (decide (b = r)) as [->|Hb].
    + by rewrite decide_True.
    + by rewrite (decide_False (P := Some b = Some r)) by congruence.
Qed.

Lemma run_app (ops1 ops2 : list Op) w :
  run (ops1 ++ ops2) w = run ops2 (run ops1 w).
Proof. apply foldl_app. Qed.

Lemma inv_reached (buttons_disabled : bool) (ops : list Op) :
  world_inv (reached buttons_disabled ops).
Proof. apply inv_reachable. Qed.

(** C1. After every sequence of operations on the page (create from the
    build form, place from the inventory, edit or delete the selected
    object, and the pointer selections in between), the pickable nodes of
    the scene and the records of the registry are in one-to-one
    correspondence by id: the node ids, read in the order of
    [SceneManager.objects], are the record ids, read in the order of
    [ObjectManager.objects]; no id and no node occurs twice; and each node
    carries the data of its record. *)
Theorem registry_scene_correspondence (buttons_disabled : bool)
    (ops : list Op) :
  node_ids (reached buttons_disabled ops)
  = Some <$> record_ids (reached buttons_disabled ops) ∧
  NoDup (record_ids (reached buttons_disabled ops)) ∧
  NoDup (sm_objects (reached buttons_disabled ops)) ∧
  corresponds (reached buttons_disabled ops).
Proof.
  destruct (inv_reached buttons_disabled ops) as [Hc Hnd _ Hrnd _ _ _ _].
  auto using node_ids_corresponds.
Qed.

(** C2. The selection is the one field [selectedObject], so at most one
    node is selected at any moment, and in every state the page can reach a
    pickable node shows the highlight exactly when it is that node. The
    emissive is saved and restored whatever colour it is. Take any world,
    with meshes of any emissive colours, and two meshes A and B in it.
    (a) When A is not the selection, selecting A makes it the selection,
    saves the emissive A showed and puts the highlight on A. (b) Whenever A
    is the selection with the saved emissive [e], selecting B puts exactly
    [e] back on A before B's emissive is saved and B is highlighted: A shows
    [e], B is the selection, shows the highlight and has its own emissive
    saved, and no third mesh is touched. (c) So selecting A and then B, in a
    world whose selection if any has a saved emissive, leaves A showing
    exactly the emissive it had before it was selected, B the selection, and
    every mesh other than B showing the emissive it carried underneath any
    highlight at the start: no tint remains. *)
Theorem select_switches_highlight (buttons_disabled : bool) (ops : list Op)
    (w : World) (A B : nat) (mA mB : Mesh) :
  (∀ r, r ∈ sm_objects (reached buttons_disabled ops) →
        (shown_emissive (reached buttons_disabled ops) r = Some highlightHex
         ↔ selectedObject (reached buttons_disabled ops) = Some r)) ∧
  (heap w !! A = Some mA → heap w !! B = Some mB → B ≠ A →
   (selectedObject w ≠ Some A →
    selectedObject (selectObject A w) = Some A ∧
    saved_emissive (selectObject A w) A = Some (emissive (material mA)) ∧
    shown_emissive (selectObject A w) A = Some highlightHex) ∧
   (∀ e : Z,
      selectedObject w = Some A → currentHex mA = Some e →
      shown_emissive (selectObject B w) A = Some e ∧
      selectedObject (selectObject B w) = Some B ∧
      shown_emissive (selectObject B w) B = Some highlightHex ∧
      saved_emissive (selectObject B w) B = Some (emissive (material mB)) ∧
      (∀ r, r ≠ A → r ≠ B → heap (selectObject B w) !! r = heap w !! r)) ∧
   (selectedObject w ≠ Some A → saved_defined w →
    shown_emissive (selectObject B (selectObject A w)) A
    = Some (emissive (material mA)) ∧
    selectedObject (selectObject B (selectObject A w)) = Some B ∧
    shown_emissive (selectObject B (selectObject A w)) B
    = Some highlightHex ∧
    (∀ r, r ≠ B →
          shown_emissive (selectObject B (selectObject A w)) r
          = original_emissive w r))).
Proof.
  split.
  { intros r Hr. apply highlight_is_selection; [apply inv_reached | done]. }
  intros HA HB Hne.
  split; [|split].
  - intros HnA.
    destruct (selectObject_frame w A) as (_ & _ & _ & _ & _ & Es & _).
    split; [done|].
    unfold saved_emissive, shown_emissive.
    rewrite heap_selectObject, HA. cbn. unfold select_mesh.
    rewrite (decide_False (P := selectedObject w = Some A)) by done.
    by rewrite decide_True.
  - intros e Hs He.
    destruct (selectObject_frame w B) as (_ & _ & _ & _ & _ & Es & _).
    assert (∀ r, r ≠ A → r ≠ B → heap (selectObject B w) !! r = heap w !! r)
      as Hframe.
    { intros r HrA HrB. rewrite heap_selectObject.
      destruct (heap w !! r) as [m|]; [|done]. cbn. unfold select_mesh.
      rewrite (decide_False (P := selectedObject w = Some r)) by congruence.
      by rewrite (decide_False (P := B = r)) by congruence. }
    unfold saved_emissive, shown_emissive.
    rewrite !heap_selectObject, HA, HB. cbn. unfold select_mesh, restore_mesh.
    rewrite (decide_True (P := selectedObject w = Some A)) by done.
    rewrite (decide_False (P := B = A)) by done.
    rewrite (decide_False (P := selectedObject w = Some B)) by congruence.
    rewrite (decide_True (P := B = B)) by done.
    cbn. rewrite He. cbn.
    by do 4 (split; [done|]).
  - intros HnA Hsaved.
    destruct (selectObject_frame w A) as (_ & _ & _ & _ & _ & EsA & _).
    destruct (selectObject_frame (selectObject A w) B)
      as (_ & _ & _ & _ & _ & EsB & _).
    assert (∀ r, r ≠ B →
              shown_emissive (selectObject B (selectObject A w)) r
              = original_emissive w r) as Hframe.
    { intros r HrB. unfold original_emissive, shown_emissive, saved_emissive.
      rewrite !heap_selectObject.
      destruct (heap w !! r) as [m|] eqn:Hm; cbn; [|by case_decide].
      unfold select_mesh, restore_mesh. rewrite EsA.
      rewrite (decide_False (P := B = r)) by congruence.
      destruct (decide (selectedObject w = Some r)) as [Hs|Hs].
      - destruct (Hsaved r m Hs Hm) as [c Hc]. rewrite Hc.
        rewrite (decide_False (P := A = r)) by congruence.
        by rewrite (decide_False (P := Some A = Some r)) by congruence.
      - destruct (decide (A = r)) as [->|Hr].
        + by rewrite decide_True.
        + by rewrite (decide_False (P := Some A = Some r)) by congruence. }
    split; [|split; [done|split; [|done]]].
    + rewrite (Hframe A) by congruence. unfold original_emissive.
      rewrite decide_False by done. unfold shown_emissive. by rewrite HA.
    + unfold shown_emissive. rewrite !heap_selectObject, HB. cbn.
      unfold select_mesh. by rewrite (decide_True (P := B = B)).
Qed.

(** C3, as the code has it. When [removeObject] is called on the selected
    node of a reachable state, the node is taken out of the pickable list,
    the selection is cleared and the edit and delete buttons are disabled;
    the node keeps the highlight in its emissive and no event is
    dispatched. *)
Theorem removeObject_selected_silent (buttons_disabled : bool)
    (ops : list Op) (r : nat) :
  selectedObject (reached buttons_disabled ops) = Some r →
  (r ∉ sm_objects (removeObject r (reached buttons_disabled ops))) ∧
  selectedObject (removeObject r (reached buttons_disabled ops)) = None ∧
  edit_disabled (removeObject r (reached buttons_disabled ops)) = true ∧
  delete_disabled (removeObject r (reached buttons_disabled ops)) = true ∧
  shown_emissive (removeObject r (reached buttons_disabled ops)) r
    = Some highlightHex ∧
  dispatched (removeObject r (reached buttons_disabled ops))
    = dispatched (reached buttons_disabled ops).
Proof.
  set (w := reached buttons_disabled ops). intros Hs.
  assert (world_inv w) as Hinv by apply inv_reached.
  pose proof (inv_selected w Hinv r Hs) as Hr.
  pose proof (proj2 (highlight_is_selection w r Hinv Hr) Hs) as Hshown.
  apply list_elem_of_lookup in Hr as [i Hi].
  rewrite (removeObject_selected w r i Hinv Hs Hi). cbn.
  repeat split; try done.
  by apply (NoDup_delete_lookup _ _ _ (inv_refs_nodup w Hinv) Hi).
Qed.

(** C10. Take any state the page can reach, followed by any series of
    pointer selections, and let r be the selected node. The value saved for
    r is the emissive [createObject] gave it, which is not the highlight
    colour. Selecting r again leaves the saved value as it is, with r
    highlighted; and a deselection, before or after that, puts the saved
    value back into r's emissive. *)
Theorem reselect_keeps_saved_emissive (buttons_disabled : bool)
    (ops : list Op) (hits : list nat) (r : nat) :
  selectedObject (reached buttons_disabled (ops ++ picks hits)) = Some r →
  saved_emissive (reached buttons_disabled (ops ++ picks hits)) r
    = Some defaultEmissiveHex ∧
  saved_emissive (reached buttons_disabled (ops ++ picks hits)) r
    ≠ Some highlightHex ∧
  saved_emissive
    (selectObject r (reached buttons_disabled (ops ++ picks hits))) r
    = saved_emissive (reached buttons_disabled (ops ++ picks hits)) r ∧
  shown_emissive
    (selectObject r (reached buttons_disabled (ops ++ picks hits))) r
    = Some highlightHex ∧
  shown_emissive
    (deselectObject
       (selectObject r (reached buttons_disabled (ops ++ picks hits)))) r
    = saved_emissive (reached buttons_disabled (ops ++ picks hits)) r ∧
  shown_emissive
    (deselectObject (reached buttons_disabled (ops ++ picks hits))) r
    = saved_emissive (reached buttons_disabled (ops ++ picks hits)) r.
Proof.
  set (w := reached buttons_disabled (ops ++ picks hits)). intros Hs.
  assert (world_inv w) as Hinv by apply inv_reached.
  pose proof (inv_selected w Hinv r Hs) as Hr.
  assert (world_inv (selectObject r w)) as Hinv' by (by apply inv_selectObject).
  destruct (selectObject_frame w r) as (Eo & _ & _ & _ & _ & Es & _).
  destruct (deselectObject_frame w) as (Eo1 & _ & _ & _ & _ & Es1).
  destruct (deselectObject_frame (selectObject r w)) as (Eo2 & _ & _ & _ & _ & Es2).
  rewrite (selected_saves_default w r Hinv Hs).
  repeat split.
  - discriminate.
  - by apply selected_saves_default.
  - apply highlight_is_selection; [done | by rewrite Eo | done].
  - apply unselected_shows_default;
      [by apply inv_deselectObject | by rewrite Eo2, Eo | by rewrite Es2].
  - apply unselected_shows_default;
      [by apply inv_deselectObject | by rewrite Eo1 | by rewrite Es1].
Qed.

End WorldFacts.

(** C3 as stated fails. After a box is created and picked, an explicit
    deselection restores its emissive and dispatches [objectDeselected];
    [removeObject] on the same state leaves the highlight in place and
    dispatches nothing, and removing after an explicit deselection gives a
    different state. *)
Lemma removeObject_selected_counterexample :
  selectedObject
    (reached true [CreateFromUI example_form; MouseDown (Some 0%nat)])
  = Some 0%nat ∧
  shown_emissive
    (deselectObject
       (reached true [CreateFromUI example_form; MouseDown (Some 0%nat)]))
    0%nat = Some defaultEmissiveHex ∧
  dispatched
    (deselectObject
       (reached true [CreateFromUI example_form; MouseDown (Some 0%nat)]))
  = [objectSelected 0; objectDeselected] ∧
  shown_emissive
    (removeObject 0
       (reached true [CreateFromUI example_form; MouseDown (Some 0%nat)]))
    0%nat = Some highlightHex ∧
  dispatched
    (removeObject 0
       (reached true [CreateFromUI example_form; MouseDown (Some 0%nat)]))
  = [objectSelected 0] ∧
  removeObject 0
    (reached true [CreateFromUI example_form; MouseDown (Some 0%nat)])
  ≠ removeObject 0
      (deselectObject
         (reached true [CreateFromUI example_form; MouseDown (Some 0%nat)])).
Proof.
  repeat split; try (vm_compute; reflexivity).
  intros Heq. apply (f_equal dispatched) in Heq. vm_compute in Heq.
  discriminate.
Qed.

Lemma removeObject_selected_silent_witness :
  (0%nat ∉ sm_objects
     (removeObject 0
        (reached true [CreateFromUI example_form; MouseDown (Some 0%nat)]))) ∧
  dispatched
    (removeObject 0
       (reached true [CreateFromUI example_form; MouseDown (Some 0%nat)]))
  = dispatched
      (reached true [CreateFromUI example_form; MouseDown (Some 0%nat)]).
Proof.
  pose proof (removeObject_selected_silent true
                [CreateFromUI example_form; MouseDown (Some 0%nat)] 0
                eq_refl) as (H1 & _ & _ & _ & _ & H2).
  exact (conj H1 H2).
Defined.

Lemma select_switches_highlight_witness :
  shown_emissive (selectObject 1 (selectObject 0 glowing_pair)) 0%nat
  = Some 0x112233 ∧
  selectedObject (selectObject 1 (selectObject 0 glowing_pair)) = Some 1%nat ∧
  shown_emissive (selectObject 1 (selectObject 0 glowing_pair)) 1%nat
  = Some highlightHex.
Proof.
  destruct (proj2 (select_switches_highlight true [] glowing_pair 0 1
                     (glowing_mesh 1 0x112233) (glowing_mesh 2 0x445566)))
    as (_ & _ & Hc); [reflexivity | reflexivity | discriminate |].
  destruct Hc as (H1 & H2 & H3 & _);
    [discriminate | intros a m Hs; discriminate Hs |].
  exact (conj H1 (conj H2 H3)).
Defined.

Lemma reselect_keeps_saved_emissive_witness :
  saved_emissive
    (selectObject 0
       (reached true ([CreateFromUI example_form] ++ picks [0; 0; 0]%nat)))
    0%nat
  = saved_emissive
      (reached true ([CreateFromUI example_form] ++ picks [0; 0; 0]%nat)) 0%nat.
Proof.
  destruct (reselect_keeps_saved_emissive true [CreateFromUI example_form]
              [0; 0; 0]%nat 0 eq_refl) as (_ & _ & H & _).
  exact H.
Defined.

(** ** object.js and scene.js: further properties of the registry *)

Section RegistryFacts.

Implicit Types (w : World) (r a b : nat) (m : Mesh) (d : ObjectData).

(** *** What one operation does to ids, selection, buttons and events *)

Lemma removeObject_frame w a :
  om_objects (removeObject a w) = om_objects w ∧
  nextObjectId (removeObject a w) = nextObjectId w ∧
  heap (removeObject a w) = heap w ∧
  dispatched (removeObject a w) = dispatched w ∧
  system_log (removeObject a w) = system_log w.
Proof. unfold removeObject. by case_decide. Qed.

Lemma record_ids_edit (f : BuildForm) w :
  record_ids (editSelectedObject f w) = record_ids w.
Proof.
  unfold editSelectedObject, record_ids.
  destruct (selectedObject w) as [a|]; [|done].
  destruct (heap w !! a) as [m|]; [|done].
  destruct (findIndex_id _ _) as [i|]; [|done]. cbn.
  rewrite (list_fmap_alter od_id (edit_data f) (λ x, x)); [|by apply Forall_true].
  by rewrite list_alter_id.
Qed.

Lemma record_ids_delete w :
  record_ids (deleteSelectedObject w) `sublist_of` record_ids w.
Proof.
  unfold deleteSelectedObject, record_ids.
  destruct (selectedObject w) as [a|]; [|done].
  destruct (heap w !! a) as [m|]; [|done].
  destruct (removeObject_frame w a) as (Eo & _).
  destruct (findIndex_id _ _) as [i|]; cbn; rewrite Eo; [|done].
  rewrite list_fmap_delete. apply sublist_delete.
Qed.

Lemma record_ids_onMouseDown (hit : option nat) w :
  record_ids (onMouseDown hit w) = record_ids w.
Proof.
  unfold onMouseDown, record_ids.
  destruct (hit ≫= _) as [b|].
  - by destruct (selectObject_frame w b) as (_ & _ & -> & _).
  - by destruct (deselectObject_frame w) as (_ & _ & -> & _).
Qed.

Lemma step_create w (o : Op) :
  is_create o = true →
  record_ids (step w o) = record_ids w ++ [nextObjectId w] ∧
  nextObjectId (step w o) = nextObjectId w + 1.
Proof.
  destruct o; try discriminate; intros _; unfold record_ids; cbn;
    by rewrite fmap_app.
Qed.

Lemma step_other w (o : Op) :
  is_create o = false →
  record_ids (step w o) `sublist_of` record_ids w ∧
  nextObjectId (step w o) = nextObjectId w.
Proof.
  destruct o as [| |f| |hit]; try discriminate; intros _; cbn [step].
  - rewrite record_ids_edit. split; [done|].
    unfold editSelectedObject.
    destruct (selectedObject w) as [a|]; [|done].
    destruct (heap w !! a) as [m|]; [|done].
    by destruct (findIndex_id _ _).
  - split; [apply record_ids_delete|].
    unfold deleteSelectedObject.
    destruct (selectedObject w) as [a|]; [|done].
    destruct (heap w !! a) as [m|]; [|done].
    destruct (removeObject_frame w a) as (_ & En & _).
    by destruct (findIndex_id _ _).
  - rewrite record_ids_onMouseDown. split; [done|].
    unfold onMouseDown. destruct (hit ≫= _) as [b|].
    + by destruct (selectObject_frame w b) as (_ & _ & _ & -> & _).
    + by destruct (deselectObject_frame w) as (_ & _ & _ & -> & _).
Qed.

Lemma reached_snoc (buttons_disabled : bool) (ops : list Op) (o : Op) :
  reached buttons_disabled (ops ++ [o])
  = step (reached buttons_disabled ops) o.
Proof. unfold reached. by rewrite run_app. Qed.

Lemma StronglySorted_sublist {A : Type} (R : relation A) (l1 l2 : list A) :
  l1 `sublist_of` l2 → StronglySorted R l2 → StronglySorted R l1.
Proof.
  induction 1 as [|x l1 l2 Hsub IH|x l1 l2 Hsub IH]; intros Hs; [done| |].
  - apply StronglySorted_inv in Hs as [Hs Hx]. constructor; [by apply IH|].
    rewrite Forall_forall in Hx |- *. intros y Hy.
    apply Hx. by eapply elem_of_sublist.
  - apply StronglySorted_inv in Hs as [Hs _]. by apply IH.
Qed.

(** *** Ids are handed out once *)

Lemma ids_sorted_step w (o : Op) :
  StronglySorted Z.lt (record_ids w) ∧
  Forall (λ i, 1 ≤ i < nextObjectId w) (record_ids w) ∧
  1 ≤ nextObjectId w →
  StronglySorted Z.lt (record_ids (step w o)) ∧
  Forall (λ i, 1 ≤ i < nextObjectId (step w o)) (record_ids (step w o)) ∧
  1 ≤ nextObjectId (step w o) ∧
  nextObjectId (step w o)
  = nextObjectId w + (if is_create o then 1 else 0).
Proof.
  intros (Hs & Hb & Hn). rewrite Forall_forall in Hb.
  destruct (is_create o) eqn:Hc.
  - destruct (step_create w o Hc) as [-> ->].
    split; [|split; [|split; [lia | done]]].
    + apply StronglySorted_app_2; [|done|repeat constructor].
      intros x y Hx ->%list_elem_of_singleton. apply (Hb x Hx).
    + apply Forall_app. split.
      * apply Forall_forall. intros x Hx. specialize (Hb x Hx). cbn in Hb. lia.
      * constructor; [lia | constructor].
  - destruct (step_other w o Hc) as [Hsub ->].
    split; [|split; [|split; [done | lia]]].
    + by eapply StronglySorted_sublist.
    + apply Forall_forall. intros x Hx. apply Hb. by eapply elem_of_sublist.
Qed.

(** X1. In every state the page can reach, the ids of the registry increase
    strictly along the list, lie between 1 and the id counter, and the
    counter is 1 plus the number of objects created so far, deleted or not:
    an id is never handed out twice. *)
Theorem ids_never_reused (buttons_disabled : bool) (ops : list Op) :
  StronglySorted Z.lt (record_ids (reached buttons_disabled ops)) ∧
  Forall (λ i, 1 ≤ i < nextObjectId (reached buttons_disabled ops))
         (record_ids (reached buttons_disabled ops)) ∧
  nextObjectId (reached buttons_disabled ops)
  = 1 + Z.of_nat (length (filter (λ o, is_create o = true) ops)).
Proof.
  induction ops as [|o ops IH] using rev_ind.
  - repeat split; constructor.
  - destruct IH as (Hs & Hb & Hn).
    destruct (ids_sorted_step (reached buttons_disabled ops) o)
      as (Hs' & Hb' & _ & Hn'); [repeat split; [done | done | lia]|].
    rewrite reached_snoc. repeat split; [done | done |].
    rewrite Hn', Hn, filter_app, length_app, filter_cons, filter_nil.
    destruct (is_create o);
      [rewrite decide_True by done | rewrite decide_False by done]; cbn; lia.
Qed.

(** *** Lookup by id *)

Lemma getObjectById_None (id : Z) w :
  getObjectById id w = None ↔ id ∉ record_ids w.
Proof.
  unfold getObjectById, record_ids. rewrite fmap_None, list_find_None.
  rewrite Forall_forall, list_elem_of_fmap. split.
  - intros H (d & -> & Hd). by apply (H d Hd).
  - intros H d Hd Heq. apply H. by exists d.
Qed.

Lemma unknown_id_step (id : Z) w (o : Op) :
  id < nextObjectId w → id ∉ record_ids w →
  id < nextObjectId (step w o) ∧ id ∉ record_ids (step w o).
Proof.
  intros Hlt Hout. destruct (is_create o) eqn:Hc.
  - destruct (step_create w o Hc) as [-> ->]. split; [lia|].
    rewrite elem_of_app, list_elem_of_singleton. intros [H|H]; [done | lia].
  - destruct (step_other w o Hc) as [Hsub ->]. split; [done|].
    intros H. apply Hout. by eapply elem_of_sublist.
Qed.

Lemma unknown_id_run (id : Z) (ops : list Op) w :
  id < nextObjectId w → id ∉ record_ids w →
  id ∉ record_ids (run ops w).
Proof.
  revert w. induction ops as [|o ops IH]; intros w Hlt Hout; [done|].
  destruct (unknown_id_step id w o Hlt Hout). cbn. by apply IH.
Qed.

(** X2. Once the selected object has been deleted, its id resolves to no
    record, whatever is done to the page afterwards. *)
Theorem deleted_id_never_resolves (buttons_disabled : bool)
    (ops later : list Op) (r : nat) (id : Z) :
  selectedObject (reached buttons_disabled ops) = Some r →
  node_id (reached buttons_disabled ops) r = Some id →
  getObjectById id
    (run later (deleteSelectedObject (reached buttons_disabled ops))) = None.
Proof.
  set (w := reached buttons_disabled ops). intros Hs Hid.
  assert (world_inv w) as Hinv by apply inv_reached.
  unfold node_id in Hid. destruct (heap w !! r) as [m|] eqn:Hm; [|done].
  injection Hid as <-.
  destruct (selected_position w r m Hinv Hs Hm)
    as (i & d & Hi & Hd & Ha & Hidx & Hfind).
  apply getObjectById_None, unknown_id_run.
  - destruct (step_other w DeleteSelected eq_refl) as [_ Hn]. cbn in Hn.
    rewrite Hn. destruct Ha as [-> _].
    pose proof (inv_ids_bound w Hinv) as Hb. rewrite Forall_forall in Hb.
    apply (Hb d). apply list_elem_of_lookup. by exists i.
  - unfold deleteSelectedObject. rewrite Hs, Hm.
    rewrite (removeObject_selected w r i) by done.
    cbn [om_objects with_buttons with_selection with_scene]. rewrite Hfind.
    unfold record_ids. cbn. rewrite list_fmap_delete.
    destruct Ha as [-> _].
    apply (NoDup_delete_lookup _ _ _ (inv_ids_nodup w Hinv)).
    unfold record_ids. by rewrite list_lookup_fmap, Hd.
Qed.

(** X3. After an object is created from the build form, looking up the id the
    counter showed returns the new record, which carries the form's type,
    colour, transparency and flags, the uniform scale and the position half
    a size above the ground; the new mesh is the last pickable node and
    agrees with that record. *)
Theorem create_then_lookup (buttons_disabled : bool) (ops : list Op)
    (f : BuildForm) :
  ∃ d m,
    getObjectById (nextObjectId (reached buttons_disabled ops))
      (createObjectFromUI f (reached buttons_disabled ops)) = Some d ∧
    od_id d = nextObjectId (reached buttons_disabled ops) ∧
    od_type d = form_type f ∧
    od_scale d = mkVec3 (form_size f) (form_size f) (form_size f) ∧
    od_position d = mkVec3 0 (form_size f / 2) 0 ∧
    od_rotation d = vec3_zero ∧
    od_color d = form_color f ∧
    od_transparency d = form_transparency f ∧
    last (sm_objects (createObjectFromUI f (reached buttons_disabled ops)))
      = Some (next_ref (reached buttons_disabled ops)) ∧
    heap (createObjectFromUI f (reached buttons_disabled ops))
      !! next_ref (reached buttons_disabled ops) = Some m ∧
    agrees m d.
Proof.
  set (w := reached buttons_disabled ops).
  assert (world_inv w) as Hinv by apply inv_reached.
  set (d := mkObjectData (nextObjectId w) (form_type f)
              (mkVec3 0 (form_size f / 2) 0) vec3_zero
              (mkVec3 (form_size f) (form_size f) (form_size f))
              (form_color f) (form_transparency f)
              (form_physical f) (form_phantom f) (form_temporary f)).
  exists d, (mesh_of_data d). split.
  - unfold getObjectById, createObjectFromUI. cbn.
    rewrite list_find_app_r.
    + cbn. rewrite decide_True by done. reflexivity.
    + apply list_find_None.
      eapply Forall_impl; [apply (inv_ids_bound w Hinv)|].
      cbn. intros d' Hd'. lia.
  - do 7 (split; [reflexivity|]).
    split; [cbn; apply last_snoc|].
    split; [cbn; apply lookup_insert_eq | apply agrees_mesh_of_data].
Qed.

End RegistryFacts.

Lemma deleted_id_never_resolves_witness :
  getObjectById 1
    (run [CreateFromUI example_form; CreateFromUI example_form]
       (deleteSelectedObject
          (reached true [CreateFromUI example_form; MouseDown (Some 0%nat)])))
  = None.
Proof.
  apply (deleted_id_never_resolves true
           [CreateFromUI example_form; MouseDown (Some 0%nat)]
           [CreateFromUI example_form; CreateFromUI example_form] 0 1);
    reflexivity.
Defined.

(** ** object.js and scene.js: selection, buttons and the effect of edits *)

Section SelectionFacts.

Implicit Types (w : World) (r a b : nat) (m : Mesh) (d : ObjectData).

Lemma selectObject_buttons w b :
  edit_disabled (selectObject b w) = false ∧
  delete_disabled (selectObject b w) = false.
Proof. unfold selectObject. by destruct (selectedObject w). Qed.

(** An operation leaves selection, buttons and events alone, or selects a
    node and enables the buttons, or clears an existing selection and
    disables them. *)
Lemma step_selection w (o : Op) :
  (selectedObject (step w o) = selectedObject w ∧
   edit_disabled (step w o) = edit_disabled w ∧
   delete_disabled (step w o) = delete_disabled w ∧
   dispatched (step w o) = dispatched w)
  ∨ (∃ b, selectedObject (step w o) = Some b ∧
          edit_disabled (step w o) = false ∧
          delete_disabled (step w o) = false ∧
          dispatched (step w o) = dispatched w ++ [objectSelected b])
  ∨ (selectedObject (step w o) = None ∧
     edit_disabled (step w o) = true ∧
     delete_disabled (step w o) = true ∧
     (dispatched (step w o) = dispatched w
      ∨ dispatched (step w o) = dispatched w ++ [objectDeselected])).
Proof.
  destruct o as [f|item random|f| |hit]; cbn [step].
  - by left.
  - by left.
  - left. unfold editSelectedObject.
    destruct (selectedObject w) as [a|] eqn:Hs; [|done].
    destruct (heap w !! a) as [m|]; [|done].
    by destruct (findIndex_id _ _).
  - unfold deleteSelectedObject.
    destruct (selectedObject w) as [a|] eqn:Hs; [|by left].
    destruct (heap w !! a) as [m|]; [|by left].
    right; right. unfold removeObject.
    cbn [selectedObject with_scene]. rewrite Hs, decide_True by done.
    destruct (findIndex_id _ _); cbn; auto.
  - unfold onMouseDown. destruct (hit ≫= _) as [b|].
    + right; left. exists b.
      destruct (selectObject_frame w b) as (_ & _ & _ & _ & _ & Es & Ed).
      destruct (selectObject_buttons w b). auto.
    + unfold deselectObject.
      destruct (selectedObject w) as [a|] eqn:Hs; [|by left].
      right; right. cbn. auto.
Qed.

(** X4. In every state the page can reach, the edit and delete buttons are
    enabled whenever a node is selected; on a page that starts with the
    buttons disabled they are disabled whenever nothing is selected. *)
Theorem buttons_follow_selection (buttons_disabled : bool) (ops : list Op) :
  (is_Some (selectedObject (reached buttons_disabled ops)) →
   edit_disabled (reached buttons_disabled ops) = false ∧
   delete_disabled (reached buttons_disabled ops) = false) ∧
  (buttons_disabled = true →
   selectedObject (reached buttons_disabled ops) = None →
   edit_disabled (reached buttons_disabled ops) = true ∧
   delete_disabled (reached buttons_disabled ops) = true).
Proof.
  induction ops as [|o ops IH] using rev_ind.
  - split; [by intros [? [=]] | by intros ->].
  - rewrite reached_snoc. set (w := reached buttons_disabled ops) in *.
    destruct IH as [IH1 IH2].
    destruct (step_selection w o)
      as [(-> & -> & -> & _)|[(b & -> & -> & -> & _)|(-> & -> & -> & _)]];
      [done | | ].
    + split; [done | by intros _ [=]].
    + split; [by intros [? [=]] | done].
Qed.

(** X5. In every state the page can reach, if a node is selected then the last
    event dispatched to the document is the [objectSelected] event of that
    node. *)
Theorem last_event_names_selection (buttons_disabled : bool)
    (ops : list Op) (r : nat) :
  selectedObject (reached buttons_disabled ops) = Some r →
  last (dispatched (reached buttons_disabled ops)) = Some (objectSelected r).
Proof.
  revert r. induction ops as [|o ops IH] using rev_ind; intros r; [done|].
  rewrite reached_snoc. set (w := reached buttons_disabled ops) in *.
  destruct (step_selection w o)
    as [(-> & _ & _ & ->)|[(b & -> & _ & _ & ->)|(-> & _)]];
    [apply IH | | done].
  intros [= ->]. apply last_snoc.
Qed.

(** X6. On any world whose selected mesh has a saved emissive, selecting a node
    and then deselecting leaves every mesh showing the emissive it carried
    underneath the highlight before, whatever that colour is, and nothing
    selected. *)
Theorem select_deselect_restores w b r :
  saved_defined w →
  shown_emissive (deselectObject (selectObject b w)) r = original_emissive w r ∧
  selectedObject (deselectObject (selectObject b w)) = None.
Proof.
  intros Hsaved.
  destruct (deselectObject_frame (selectObject b w)) as (_ & _ & _ & _ & _ & Es).
  split; [|done].
  destruct (selectObject_frame w b) as (_ & _ & _ & _ & _ & Eb & _).
  unfold original_emissive, shown_emissive, saved_emissive.
  rewrite heap_deselectObject, heap_selectObject, Eb.
  destruct (heap w !! r) as [m|] eqn:Hm; cbn; [|by case_decide].
  unfold select_mesh, restore_mesh.
  destruct (decide (selectedObject w = Some r)) as [Hs|Hs].
  - destruct (Hsaved r m Hs Hm) as [c Hc]. rewrite Hc.
    destruct (decide (b = r)) as [->|Hb].
    + by rewrite decide_True.
    + by rewrite (decide_False (P := Some b = Some r)) by congruence.
  - destruct (decide (b = r)) as [->|Hb].
    + by rewrite decide_True.
    + by rewrite (decide_False (P := Some b = Some r)) by congruence.
Qed.

(** *** What delete and edit change *)

Lemma deleteSelectedObject_reached w r i m d :
  world_inv w → selectedObject w = Some r → heap w !! r = Some m →
  sm_objects w !! i = Some r → om_objects w !! i = Some d →
  deleteSelectedObject w
  = addLogEntry ("Deleted object with ID: " +:+ pretty (od_id d)) "info"
      (with_records (delete i)
         (with_buttons true
            (with_selection None
               (with_scene (delete i (scene_children w))
                           (delete i (sm_objects w)) w)))).
Proof.
  intros Hinv Hs Hm Hi Hd.
  destruct (selected_position w r m Hinv Hs Hm)
    as (i' & d' & Hi' & Hd' & Ha & _ & Hfind).
  assert (i' = i) as ->
    by (by eapply NoDup_lookup; [apply (inv_refs_nodup w Hinv) | |]).
  assert (d' = d) as -> by congruence.
  unfold deleteSelectedObject. rewrite Hs, Hm.
  rewrite (removeObject_selected w r i) by done.
  cbn [om_objects with_buttons with_selection with_scene]. rewrite Hfind.
  by destruct Ha as [-> _].
Qed.

(** X7. Deleting the selected object of a reachable state removes the node and
    the record at the same position of the two lists, clears the selection,
    disables both buttons, dispatches no event, writes one log line, leaves
    the id counter alone and keeps the mesh itself as it was. *)
Theorem delete_selected_effect (buttons_disabled : bool) (ops : list Op)
    (r i : nat) :
  selectedObject (reached buttons_disabled ops) = Some r →
  sm_objects (reached buttons_disabled ops) !! i = Some r →
  ∃ d,
    om_objects (reached buttons_disabled ops) !! i = Some d ∧
    node_id (reached buttons_disabled ops) r = Some (od_id d) ∧
    sm_objects (deleteSelectedObject (reached buttons_disabled ops))
      = delete i (sm_objects (reached buttons_disabled ops)) ∧
    om_objects (deleteSelectedObject (reached buttons_disabled ops))
      = delete i (om_objects (reached buttons_disabled ops)) ∧
    selectedObject (deleteSelectedObject (reached buttons_disabled ops))
      = None ∧
    edit_disabled (deleteSelectedObject (reached buttons_disabled ops))
      = true ∧
    delete_disabled (deleteSelectedObject (reached buttons_disabled ops))
      = true ∧
    dispatched (deleteSelectedObject (reached buttons_disabled ops))
      = dispatched (reached buttons_disabled ops) ∧
    system_log (deleteSelectedObject (reached buttons_disabled ops))
      = system_log (reached buttons_disabled ops)
        ++ [("Deleted object with ID: " +:+ pretty (od_id d), "info")] ∧
    nextObjectId (deleteSelectedObject (reached buttons_disabled ops))
      = nextObjectId (reached buttons_disabled ops) ∧
    heap (deleteSelectedObject (reached buttons_disabled ops))
      = heap (reached buttons_disabled ops).
Proof.
  set (w := reached buttons_disabled ops). intros Hs Hi.
  assert (world_inv w) as Hinv by apply inv_reached.
  destruct (Forall2_lookup_l _ _ _ _ _ (inv_corresponds w Hinv) Hi)
    as (d & Hd & m & Hm & Ha).
  exists d. rewrite (deleteSelectedObject_reached w r i m d) by done.
  unfold node_id. rewrite Hm. cbn. destruct Ha as [-> _].
  by repeat split.
Qed.

Lemma editSelectedObject_reached (f : BuildForm) w r i m d :
  world_inv w → selectedObject w = Some r → heap w !! r = Some m →
  sm_objects w !! i = Some r → om_objects w !! i = Some d →
  editSelectedObject f w
  = addLogEntry ("Updated object with ID: " +:+ pretty (od_id d)) "info"
      (with_records (alter (edit_data f) i)
         (with_heap (alter (edit_mesh f) r) w)).
Proof.
  intros Hinv Hs Hm Hi Hd.
  destruct (selected_position w r m Hinv Hs Hm)
    as (i' & d' & Hi' & Hd' & Ha & _ & Hfind).
  assert (i' = i) as ->
    by (by eapply NoDup_lookup; [apply (inv_refs_nodup w Hinv) | |]).
  assert (d' = d) as -> by congruence.
  unfold editSelectedObject. rewrite Hs, Hm, Hfind.
  by destruct Ha as [-> _].
Qed.

(** X8. Editing the selected object of a reachable state rewrites the scale,
    colour, transparency and flags of its record and of its mesh from the
    form, keeps the record's id, type, position and rotation, and leaves
    every other record, every other mesh, both lists' order, the selection
    and the id counter as they were. *)
Theorem edit_selected_effect (buttons_disabled : bool) (ops : list Op)
    (f : BuildForm) (r i : nat) :
  selectedObject (reached buttons_disabled ops) = Some r →
  sm_objects (reached buttons_disabled ops) !! i = Some r →
  ∃ d m,
    om_objects (reached buttons_disabled ops) !! i = Some d ∧
    heap (reached buttons_disabled ops) !! r = Some m ∧
    om_objects (editSelectedObject f (reached buttons_disabled ops)) !! i
      = Some (mkObjectData (od_id d) (od_type d) (od_position d)
                (od_rotation d)
                (mkVec3 (form_size f) (form_size f) (form_size f))
                (form_color f) (form_transparency f) (form_physical f)
                (form_phantom f) (form_temporary f)) ∧
    heap (editSelectedObject f (reached buttons_disabled ops)) !! r
      = Some (edit_mesh f m) ∧
    scale (edit_mesh f m) = mkVec3 (form_size f) (form_size f) (form_size f) ∧
    emissive (material (edit_mesh f m)) = emissive (material m) ∧
    (∀ j, j ≠ i →
       om_objects (editSelectedObject f (reached buttons_disabled ops)) !! j
       = om_objects (reached buttons_disabled ops) !! j) ∧
    (∀ r', r' ≠ r →
       heap (editSelectedObject f (reached buttons_disabled ops)) !! r'
       = heap (reached buttons_disabled ops) !! r') ∧
    sm_objects (editSelectedObject f (reached buttons_disabled ops))
      = sm_objects (reached buttons_disabled ops) ∧
    selectedObject (editSelectedObject f (reached buttons_disabled ops))
      = Some r ∧
    nextObjectId (editSelectedObject f (reached buttons_disabled ops))
      = nextObjectId (reached buttons_disabled ops).
Proof.
  set (w := reached buttons_disabled ops). intros Hs Hi.
  assert (world_inv w) as Hinv by apply inv_reached.
  destruct (Forall2_lookup_l _ _ _ _ _ (inv_corresponds w Hinv) Hi)
    as (d & Hd & m & Hm & Ha).
  exists d, m. rewrite (editSelectedObject_reached f w r i m d) by done.
  cbn. split; [done|]. split; [done|].
  split; [by rewrite list_lookup_alter_eq, Hd|].
  split; [by rewrite lookup_alter_eq, Hm|].
  do 2 (split; [done|]).
  split; [intros j Hj; by rewrite list_lookup_alter_ne|].
  split; [intros r' Hr'; by rewrite lookup_alter_ne|].
  done.
Qed.

End SelectionFacts.

(** ** object.js: how the operations compose *)

Section CompositionFacts.

Implicit Types (w : World) (r a b : nat) (m : Mesh) (d : ObjectData).

Lemma reached_app (buttons_disabled : bool) (ops1 ops2 : list Op) :
  reached buttons_disabled (ops1 ++ ops2)
  = run ops2 (reached buttons_disabled ops1).
Proof. unfold reached. by rewrite run_app. Qed.

(** X9. Applying the same edit a second time changes nothing but the log, which
    gets the same line once more. *)
Theorem edit_twice (buttons_disabled : bool) (ops : list Op) (f : BuildForm)
    (r : nat) :
  selectedObject (reached buttons_disabled ops) = Some r →
  ∃ line : string * string,
    editSelectedObject f (editSelectedObject f (reached buttons_disabled ops))
    = addLogEntry line.1 line.2
        (editSelectedObject f (reached buttons_disabled ops)) ∧
    last (system_log (editSelectedObject f (reached buttons_disabled ops)))
    = Some line.
Proof.
  intros Hs.
  assert (world_inv (reached buttons_disabled ops)) as Hinv by apply inv_reached.
  assert (world_inv (editSelectedObject f (reached buttons_disabled ops)))
    as Hinv1 by (by apply inv_editSelectedObject).
  set (w := reached buttons_disabled ops) in *.
  pose proof (inv_selected w Hinv r Hs) as Hr.
  apply list_elem_of_lookup in Hr as [i Hi].
  destruct (Forall2_lookup_l _ _ _ _ _ (inv_corresponds w Hinv) Hi)
    as (d & Hd & m & Hm & Ha).
  pose proof (editSelectedObject_reached f w r i m d Hinv Hs Hm Hi Hd) as E1.
  exists ("Updated object with ID: " +:+ pretty (od_id d), "info").
  split; [|rewrite E1; cbn; apply last_snoc].
  rewrite (editSelectedObject_reached f _ r i (edit_mesh f m) (edit_data f d)
             Hinv1).
  - rewrite E1. unfold addLogEntry, with_records, with_heap. cbn. f_equal.
    + apply map_eq. intros k. rewrite !lookup_alter.
      case_decide; [|done]. rewrite decide_True by done.
      by destruct (heap w !! r).
    + apply list_eq. intros k. rewrite !list_lookup_alter.
      case_decide; [|done]. rewrite decide_True by done.
      by destruct (om_objects w !! i).
  - by rewrite E1.
  - rewrite E1. cbn. by rewrite lookup_alter_eq, Hm.
  - by rewrite E1.
  - rewrite E1. cbn. by rewrite list_lookup_alter_eq, Hd.
Qed.

(** X10. Creating an object from the build form, picking it and deleting it
    brings the pickable list and the registry back to what they were before,
    with nothing selected and no node highlighted; only the id counter has
    moved on by one. *)
Theorem create_pick_delete_roundtrip (buttons_disabled : bool)
    (ops : list Op) (f : BuildForm) :
  sm_objects
    (reached buttons_disabled
       (ops ++ [CreateFromUI f;
                MouseDown (Some (length (sm_objects
                                           (reached buttons_disabled ops))));
                DeleteSelected]))
  = sm_objects (reached buttons_disabled ops) ∧
  om_objects
    (reached buttons_disabled
       (ops ++ [CreateFromUI f;
                MouseDown (Some (length (sm_objects
                                           (reached buttons_disabled ops))));
                DeleteSelected]))
  = om_objects (reached buttons_disabled ops) ∧
  selectedObject
    (reached buttons_disabled
       (ops ++ [CreateFromUI f;
                MouseDown (Some (length (sm_objects
                                           (reached buttons_disabled ops))));
                DeleteSelected]))
  = None ∧
  nextObjectId
    (reached buttons_disabled
       (ops ++ [CreateFromUI f;
                MouseDown (Some (length (sm_objects
                                           (reached buttons_disabled ops))));
                DeleteSelected]))
  = nextObjectId (reached buttons_disabled ops) + 1 ∧
  (∀ r, r ∈ sm_objects (reached buttons_disabled ops) →
        shown_emissive
          (reached buttons_disabled
             (ops ++ [CreateFromUI f;
                      MouseDown (Some (length (sm_objects
                                          (reached buttons_disabled ops))));
                      DeleteSelected])) r
        = Some defaultEmissiveHex).
Proof.
  set (w := reached buttons_disabled ops).
  set (hit := length (sm_objects w)).
  assert (world_inv w) as Hinv by apply inv_reached.
  set (ops2 := ops ++ [CreateFromUI f; MouseDown (Some hit)]).
  assert (reached buttons_disabled
            (ops ++ [CreateFromUI f; MouseDown (Some hit); DeleteSelected])
          = deleteSelectedObject (reached buttons_disabled ops2)) as E3.
  { unfold ops2. by rewrite !reached_app. }
  assert (reached buttons_disabled ops2
          = selectObject (next_ref w) (createObjectFromUI f w)) as E2.
  { unfold ops2. rewrite reached_app. cbn. unfold onMouseDown. cbn.
    fold w. fold hit.
    by rewrite (list_lookup_middle _ [] _ hit eq_refl). }
  destruct (selectObject_frame (createObjectFromUI f w) (next_ref w))
    as (Eo & _ & Er & En & _ & Es & _).
  assert (length (om_objects w) = hit) as Hlen
    by (symmetry; eapply Forall2_length, (inv_corresponds w Hinv)).
  assert (sm_objects (reached buttons_disabled ops2) !! hit
          = Some (next_ref w)) as Hi.
  { rewrite E2, Eo. cbn. by apply list_lookup_middle. }
  destruct (Forall2_lookup_l _ _ _ _ _
              (inv_corresponds _ (inv_reached buttons_disabled ops2)) Hi)
    as (d & Hd & m & Hm & _).
  assert (selectedObject (reached buttons_disabled ops2)
          = Some (next_ref w)) as Hsel0 by (by rewrite E2).
  pose proof (deleteSelectedObject_reached _ _ _ _ _
                (inv_reached buttons_disabled ops2) Hsel0 Hm Hi Hd) as Hdel.
  assert (sm_objects (deleteSelectedObject (reached buttons_disabled ops2))
          = delete hit (sm_objects (reached buttons_disabled ops2))) as Hsm
    by (by rewrite Hdel).
  assert (om_objects (deleteSelectedObject (reached buttons_disabled ops2))
          = delete hit (om_objects (reached buttons_disabled ops2))) as Hom
    by (by rewrite Hdel).
  assert (selectedObject (deleteSelectedObject (reached buttons_disabled ops2))
          = None) as Hsel by (by rewrite Hdel).
  assert (nextObjectId (deleteSelectedObject (reached buttons_disabled ops2))
          = nextObjectId (reached buttons_disabled ops2)) as Hnext
    by (by rewrite Hdel).
  clear Hdel.
  assert (sm_objects (deleteSelectedObject (reached buttons_disabled ops2))
          = sm_objects w) as Hsm'.
  { rewrite Hsm, E2, Eo. cbn.
    etrans; [apply (delete_middle _ [])|apply app_nil_r]. }
  rewrite E3. split; [done|]. split.
  { rewrite Hom, E2, Er. cbn. rewrite <- Hlen.
    etrans; [apply (delete_middle _ [])|apply app_nil_r]. }
  split; [done|]. split; [by rewrite Hnext, E2, En|].
  intros r Hr. rewrite <- E3.
  apply unselected_shows_default; [apply inv_reached | | ].
  - by rewrite E3, Hsm'.
  - by rewrite E3, Hsel.
Qed.

(** X11. Whatever the inventory item and whatever [Math.random] returns, the
    object placed from the inventory is a unit box: its mesh has the box
    geometry, scale 1, position (0, 1, 0) and is opaque. The record keeps
    the type "mesh" for an item of type "mesh" and "box" for every other
    item; in both cases the geometry is the box. *)
Theorem inventory_object_is_unit_box (item : InventoryItem) (random : float) w :
  ∃ m d,
    heap (loadObjectFromInventory item random w) !! next_ref w = Some m ∧
    last (sm_objects (loadObjectFromInventory item random w))
      = Some (next_ref w) ∧
    last (om_objects (loadObjectFromInventory item random w)) = Some d ∧
    agrees m d ∧
    od_id d = nextObjectId w ∧
    geometry m = BoxGeometry 1 1 1 ∧
    scale m = vec3_one ∧
    position m = mkVec3 0 1 0 ∧
    transparent (material m) = false ∧
    opacity (material m) = 1%float ∧
    (od_type d = "mesh" ↔ item_type item = "mesh") ∧
    (od_type d = "box" ↔ item_type item ≠ "mesh").
Proof.
  eexists _, _. split; [cbn; apply lookup_insert_eq|].
  split; [cbn; apply last_snoc|]. split; [cbn; apply last_snoc|].
  split; [apply agrees_mesh_of_data|]. split; [done|].
  cbn. unfold getTypeFromItem.
  destruct (decide (item_type item = "mesh")) as [E|E].
  - repeat split; done.
  - repeat case_decide; repeat split; done.
Qed.

(** X12. A build form whose type is none of box, sphere, cylinder, prism and
    torus still creates an object: its mesh has the box geometry, and its
    record keeps the type that was given. *)
Theorem unknown_type_is_box (f : BuildForm) w :
  ¬ known_type (form_type f) →
  ∃ m d,
    heap (createObjectFromUI f w) !! next_ref w = Some m ∧
    last (om_objects (createObjectFromUI f w)) = Some d ∧
    agrees m d ∧
    geometry m = BoxGeometry 1 1 1 ∧
    od_type d = form_type f.
Proof.
  intros Hk. unfold known_type in Hk.
  eexists _, _. split; [cbn; apply lookup_insert_eq|].
  split; [cbn; apply last_snoc|].
  split; [apply agrees_mesh_of_data|]. split; [|done].
  cbn. unfold geometry_of_type.
  rewrite !decide_False by tauto. done.
Qed.

End CompositionFacts.

(** ** object.js: the colour of an object placed from the inventory *)

Lemma hex_digits_bound (k : nat) (p : positive) (rest : string) :
  Z.pos p < 16 ^ Z.of_nat k →
  (String.length (HexString.Raw.of_pos p rest) ≤ k + String.length rest)%nat.
Proof.
  revert p rest. induction k as [|k IH]; intros p rest Hp.
  - cbn in Hp. lia.
  - rewrite Nat2Z.inj_succ, Z.pow_succ_r in Hp by lia.
    do 4 try destruct p as [p|p|];
      cbn [HexString.Raw.of_pos];
      first [ cbn; lia
            | etrans; [apply IH; lia | cbn; lia] ].
Qed.

(** X13. The colour of an object placed from the inventory is "#" followed by
    the hexadecimal digits of floor(random * 16777215) without leading
    zeros: when that number is below 16^k, with k at least 1, the colour
    string has at most k + 1 characters. For k = 5 it is shorter than the
    seven characters of a "#rrggbb" colour. The mesh is given the same
    string. *)
Theorem inventory_colour_digits (item : InventoryItem) (random : float)
    (w : World) (k : nat) :
  (1 ≤ k)%nat →
  JS.floorZ (random * 16777215) < 16 ^ Z.of_nat k →
  ∃ d m,
    last (om_objects (loadObjectFromInventory item random w)) = Some d ∧
    heap (loadObjectFromInventory item random w) !! next_ref w = Some m ∧
    color (material m) = od_color d ∧
    od_color d = "#" +:+ JS.toString16 (JS.floorZ (random * 16777215)) ∧
    (String.length (od_color d) ≤ S k)%nat.
Proof.
  intros Hk Hn. eexists _, _.
  split; [cbn; apply last_snoc|]. split; [cbn; apply lookup_insert_eq|].
  split; [done|]. split; [done|]. cbn.
  apply le_n_S. unfold JS.toString16.
  destruct (JS.floorZ (random * 16777215)) as [|p|p]; [cbn; lia| |cbn; lia].
  etrans; [by apply (hex_digits_bound k)|]. cbn. lia.
Qed.

Lemma inventory_colour_digits_witness :
  ∃ d m,
    last (om_objects (loadObjectFromInventory (mkInventoryItem "Chair" "object")
                        0.01 (initial_world true))) = Some d ∧
    heap (loadObjectFromInventory (mkInventoryItem "Chair" "object")
            0.01 (initial_world true)) !! 0%nat = Some m ∧
    color (material m) = od_color d ∧
    od_color d = "#" +:+ JS.toString16 (JS.floorZ (0.01 * 16777215)) ∧
    (String.length (od_color d) ≤ 6)%nat.
Proof.
  apply (inventory_colour_digits (mkInventoryItem "Chair" "object") 0.01
           (initial_world true) 5); [lia | by vm_compute].
Defined.

Lemma buttons_follow_selection_witness :
  edit_disabled
    (reached true [CreateFromUI example_form; MouseDown (Some 0%nat)]) = false ∧
  delete_disabled
    (reached true [CreateFromUI example_form; MouseDown (Some 0%nat)]) = false.
Proof.
  apply (proj1 (buttons_follow_selection true
                  [CreateFromUI example_form; MouseDown (Some 0%nat)])).
  by exists 0%nat.
Defined.

Lemma last_event_names_selection_witness :
  last (dispatched
          (reached true [CreateFromUI example_form; CreateFromUI example_form;
                         MouseDown (Some 0%nat); EditSelected example_form;
                         MouseDown (Some 1%nat)]))
  = Some (objectSelected 1).
Proof.
  apply (last_event_names_selection true
           [CreateFromUI example_form; CreateFromUI example_form;
            MouseDown (Some 0%nat); EditSelected example_form;
            MouseDown (Some 1%nat)] 1).
  reflexivity.
Defined.

Lemma select_deselect_restores_witness :
  shown_emissive (deselectObject (selectObject 0 glowing_world)) 0%nat
  = Some 0x112233 ∧
  selectedObject (deselectObject (selectObject 0 glowing_world)) = None.
Proof.
  apply (select_deselect_restores glowing_world 0 0).
  intros a m Hs. discriminate Hs.
Defined.

Lemma delete_selected_effect_witness :
  sm_objects
    (deleteSelectedObject
       (reached true [CreateFromUI example_form; CreateFromUI example_form;
                      MouseDown (Some 1%nat)]))
  = delete 1%nat
      (sm_objects
         (reached true [CreateFromUI example_form; CreateFromUI example_form;
                        MouseDown (Some 1%nat)])).
Proof.
  destruct (delete_selected_effect true
              [CreateFromUI example_form; CreateFromUI example_form;
               MouseDown (Some 1%nat)] 1 1 eq_refl eq_refl)
    as (d & _ & _ & H & _).
  exact H.
Defined.

Lemma edit_selected_effect_witness :
  selectedObject
    (editSelectedObject (mkBuildForm "sphere" 3 "#00ff00" 0.5 true false false)
       (reached true [CreateFromUI example_form; MouseDown (Some 0%nat)]))
  = Some 0%nat.
Proof.
  destruct (edit_selected_effect true
              [CreateFromUI example_form; MouseDown (Some 0%nat)]
              (mkBuildForm "sphere" 3 "#00ff00" 0.5 true false false)
              0 0 eq_refl eq_refl)
    as (d & m & _ & _ & _ & _ & _ & _ & _ & _ & _ & H & _).
  exact H.
Defined.

Lemma edit_twice_witness :
  ∃ line : string * string,
    editSelectedObject example_form
      (editSelectedObject example_form
         (reached true [CreateFromUI example_form; MouseDown (Some 0%nat)]))
    = addLogEntry line.1 line.2
        (editSelectedObject example_form
           (reached true [CreateFromUI example_form; MouseDown (Some 0%nat)])) ∧
    last (system_log
            (editSelectedObject example_form
               (reached true [CreateFromUI example_form; MouseDown (Some 0%nat)])))
    = Some line.
Proof.
  exact (edit_twice true [CreateFromUI example_form; MouseDown (Some 0%nat)]
           example_form 0 eq_refl).
Defined.

Lemma unknown_type_is_box_witness :
  ∃ m d,
    heap (createObjectFromUI
            (mkBuildForm "pyramid" 1 "#f44336" 0 false false false)
            (initial_world true)) !! 0%nat = Some m ∧
    last (om_objects
            (createObjectFromUI
               (mkBuildForm "pyramid" 1 "#f44336" 0 false false false)
               (initial_world true))) = Some d ∧
    agrees m d ∧
    geometry m = BoxGeometry 1 1 1 ∧
    od_type d = "pyramid".
Proof.
  apply (unknown_type_is_box
           (mkBuildForm "pyramid" 1 "#f44336" 0 false false false)
           (initial_world true)).
  unfold known_type. cbn. intros [H|[H|[H|[H|H]]]]; discriminate H.
Defined.

(** ** scene.js: further properties of the terrain *)

Lemma floor_and_255 (x : float) :
  JS.floor_and x 255 = JS.floorZ x mod 256.
Proof.
  unfold JS.floor_and, JS.ToInt32. change 255 with (Z.ones 8).
  rewrite Z.land_ones by lia.
  change (2 ^ 32) with 4294967296. change (2 ^ 31) with 2147483648.
  change (2 ^ 8) with 256.
  destruct (_ <? _); Z.div_mod_to_equations; lia.
Qed.

Section TerrainMore.

Variables Math_sin Math_cos : float → float.

Lemma generateHeightMap_y (maxHeight : float) (vertices : list float)
    (k : nat) :
  (3 * k + 1 < length vertices)%nat →
  Terrain.generateHeightMap Math_sin Math_cos maxHeight vertices
    !! (3 * k + 1)%nat
  = Some (JS.fround
            (Terrain.vertex_height Math_sin Math_cos maxHeight
               (Terrain.read vertices (3 * k))
               (Terrain.read vertices (3 * k + 2)))).
Proof.
  intros Hk. unfold Terrain.generateHeightMap.
  apply (height_loop_written Math_sin Math_cos _ maxHeight 0); lia.
Qed.

Lemma generateHeightMap_other (maxHeight : float) (vertices : list float)
    (p : nat) :
  (p mod 3 ≠ 1)%nat →
  Terrain.generateHeightMap Math_sin Math_cos maxHeight vertices !! p
  = vertices !! p.
Proof.
  intros Hp. unfold Terrain.generateHeightMap.
  apply (height_loop_untouched Math_sin Math_cos _ maxHeight 0). by left.
Qed.

Lemma generateHeightMap_length (maxHeight : float) (vertices : list float) :
  length (Terrain.generateHeightMap Math_sin Math_cos maxHeight vertices)
  = length vertices.
Proof. apply height_loop_length. Qed.

(** X14. [generateHeightMap] keeps the length of the position array, changes
    nothing but the y slots, and is idempotent: running it on its own
    result gives that result again, for arrays of every length. *)
Theorem heightmap_idempotent (maxHeight : float) (vertices : list float) :
  length (Terrain.generateHeightMap Math_sin Math_cos maxHeight vertices)
  = length vertices ∧
  (∀ p, (p mod 3 ≠ 1)%nat →
        Terrain.generateHeightMap Math_sin Math_cos maxHeight vertices !! p
        = vertices !! p) ∧
  Terrain.generateHeightMap Math_sin Math_cos maxHeight
    (Terrain.generateHeightMap Math_sin Math_cos maxHeight vertices)
  = Terrain.generateHeightMap Math_sin Math_cos maxHeight vertices.
Proof.
  split; [apply generateHeightMap_length|].
  split; [intros p; apply generateHeightMap_other|].
  apply list_eq. intros p.
  destruct (decide (p mod 3 = 1)%nat) as [Hp|Hp];
    [|by apply generateHeightMap_other].
  pose proof (Nat.div_mod_eq p 3) as Hdiv. rewrite Hp in Hdiv.
  set (k := (p / 3)%nat) in *. rewrite Hdiv.
  destruct (decide (p < length vertices)%nat) as [Hlt|Hge].
  - rewrite !generateHeightMap_y by (rewrite ?generateHeightMap_length; lia).
    unfold Terrain.read.
    rewrite !generateHeightMap_other; [done | |].
    + replace (3 * k + 2)%nat with (2 + k * 3)%nat by lia.
      by rewrite Nat.Div0.mod_add.
    + replace (3 * k)%nat with (0 + k * 3)%nat by lia.
      by rewrite Nat.Div0.mod_add.
  - by rewrite !(proj2 (lookup_ge_None _ _))
      by (rewrite ?generateHeightMap_length; lia).
Qed.

(** X15. The noise is constant on every unit cell and repeats with period 256
    in each coordinate: it depends on its arguments only through their
    floors modulo 256. *)
Theorem noise_cell_periodic (x y x' y' : float) :
  JS.floorZ x mod 256 = JS.floorZ x' mod 256 →
  JS.floorZ y mod 256 = JS.floorZ y' mod 256 →
  Terrain.noise2D Math_sin Math_cos x y = Terrain.noise2D Math_sin Math_cos x' y'.
Proof.
  intros Hx Hy. unfold Terrain.noise2D. by rewrite !floor_and_255, Hx, Hy.
Qed.

End TerrainMore.

Lemma noise_cell_periodic_witness :
  Terrain.noise2D example_sin example_cos 0.25 (-1.5)
  = Terrain.noise2D example_sin example_cos 256.75 254.5.
Proof.
  apply (noise_cell_periodic example_sin example_cos 0.25 (-1.5) 256.75 254.5);
    reflexivity.
Defined.

(** ** scene.js: instances of the avatar's fallbacks *)

Lemma unknown_bodyShape_is_athletic_witness :
  Avatar.createAvatar (Avatar.with_bodyShape "giant" Avatar.default_settings)
  = Avatar.createAvatar
      (Avatar.with_bodyShape "athletic" Avatar.default_settings).
Proof.
  apply (AvatarFacts.unknown_bodyShape_is_athletic Avatar.default_settings
           "giant").
  unfold Avatar.recognized_bodyShape. intros [H|[H|H]]; discriminate H.
Defined.

Lemma unknown_outfitStyle_is_casual_witness :
  Avatar.createAvatar (Avatar.with_outfitStyle "armour" Avatar.default_settings)
  = Avatar.createAvatar
      (Avatar.with_outfitStyle "casual" Avatar.default_settings).
Proof.
  apply (AvatarFacts.unknown_outfitStyle_is_casual Avatar.default_settings
           "armour").
  unfold Avatar.recognized_outfitStyle. intros [H|[H|H]]; discriminate H.
Defined.

(** ** main.js: further properties of the reconciler *)

Module ReconcilerFacts.
Import Main Reconciler.

Section Facts.

Variable Number_toString : float → string.
Variable String_toLowerCase : string → string.

(** X18. The events of the polled queue are applied in arrival order: the log
    grows by the lines of the log, login and logout events, one each and in
    order, and by nothing for chat, teleport and unknown events. The queue
    writes nothing but the log and the login status: chat, region display,
    avatar marks, status indicator, start button, timers and the user's name
    and id stay as they are. *)
Theorem event_queue_in_order (events : list ServerEvent) (p : Page) :
  systemLog (on_events String_toLowerCase events p)
  = systemLog p ++ (events ≫= event_lines String_toLowerCase) ∧
  chatMessages (on_events String_toLowerCase events p) = chatMessages p ∧
  region (on_events String_toLowerCase events p) = region p ∧
  marks (on_events String_toLowerCase events p) = marks p ∧
  statusIndicator (on_events String_toLowerCase events p)
  = statusIndicator p ∧
  startButton (on_events String_toLowerCase events p) = startButton p ∧
  poller (on_events String_toLowerCase events p) = poller p ∧
  userName (session (on_events String_toLowerCase events p))
  = userName (session p) ∧
  userId (session (on_events String_toLowerCase events p))
  = userId (session p).
Proof.
  revert p. induction events as [|e events IH]; intros p.
  - cbn. by rewrite app_nil_r.
  - unfold on_events in *. cbn [foldl].
    destruct (IH (processEvent String_toLowerCase e p))
      as (-> & -> & -> & -> & -> & -> & -> & -> & ->).
    destruct e; cbn; rewrite <- ?app_assoc; by repeat split.
Qed.

(** X19. Handling the same snapshot a second time changes nothing, and what a
    snapshot leaves in the session summary (login status, user name, user
    id) depends on the snapshot alone, not on what was shown before. *)
Theorem snapshot_idempotent (loop : nat) (data : Snapshot) (p : Page) :
  on_state Number_toString loop data (on_state Number_toString loop data p)
  = on_state Number_toString loop data p ∧
  (∀ p', session (on_state Number_toString loop data p')
         = session (on_state Number_toString loop data p)).
Proof.
  unfold on_state, clearInterval, updateRegionInfo. split.
  - destruct (decide (terminal (status data))), (logged_in data), (user data),
      (truthy_string (current_region data));
      cbn; rewrite ?difference_twice_L; reflexivity.
  - intros p'.
    destruct (decide (terminal (status data))), (logged_in data), (user data),
      (truthy_string (current_region data)); reflexivity.
Qed.

(** *** Who writes what *)

Lemma updateStatus_frame (s : string) (p : Page) :
  region (page_of (updateStatus s p)) = region p ∧
  marks (page_of (updateStatus s p)) = marks p.
Proof. unfold updateStatus. by destruct (has_whitespace s). Qed.

Lemma on_events_frame (events : list ServerEvent) (p : Page) :
  region (on_events String_toLowerCase events p) = region p ∧
  marks (on_events String_toLowerCase events p) = marks p ∧
  statusIndicator (on_events String_toLowerCase events p) = statusIndicator p.
Proof.
  revert p. induction events as [|e events IH]; intros p; [done|].
  unfold on_events in *. cbn [foldl].
  destruct (IH (processEvent String_toLowerCase e p)) as (-> & -> & ->).
  by destruct e.
Qed.

Lemma on_state_frame (loop : nat) (data : Snapshot) (p : Page) :
  statusIndicator (on_state Number_toString loop data p) = statusIndicator p ∧
  marks (on_state Number_toString loop data p) = marks p ∧
  systemLog (on_state Number_toString loop data p) = systemLog p ∧
  chatMessages (on_state Number_toString loop data p) = chatMessages p ∧
  (truthy_string (current_region data) = None →
   region (on_state Number_toString loop data p) = region p).
Proof.
  unfold on_state.
  destruct (decide (terminal (status data))), (logged_in data), (user data),
    (truthy_string (current_region data)); by repeat split.
Qed.

Lemma handle_frame (e : BrowserEvent) (p : Page) :
  (writes_status e = false →
   statusIndicator (handle Number_toString String_toLowerCase p e)
   = statusIndicator p) ∧
  (writes_region e = false →
   region (handle Number_toString String_toLowerCase p e) = region p) ∧
  (writes_marks e = false →
   marks (handle Number_toString String_toLowerCase p e) = marks p).
Proof.
  destruct e as [| | |k|k data|k|k events|k|sender message|s|data];
    cbn [handle writes_status writes_region writes_marks].
  - by repeat split.
  - by repeat split.
  - destruct (updateStatus_frame "error" p) as [Hr Hm]. by repeat split.
  - unfold on_tick. by case_decide.
  - destruct (on_state_frame k data p) as (Hs & Hm & _ & _ & Hr).
    repeat split; [done | | done].
    intros Hw. apply Hr. apply bool_decide_eq_false in Hw.
    destruct (truthy_string (current_region data)); [|done].
    by destruct Hw.
  - by repeat split.
  - destruct (on_events_frame events p) as (Hr & Hm & Hs).
    by repeat split.
  - by repeat split.
  - by repeat split.
  - destruct (updateStatus_frame s p) as [Hr Hm]. by repeat split.
  - repeat split; try done. intros _.
    unfold on_teleport. by destruct (tp_position data).
Qed.

(** X20. The status label is written only by the push channel's status updates,
    by the start button and by a failed start: no polled snapshot and no
    polled event changes it. The region display is written only by pushed
    teleports, by the start button and by snapshots that carry a region
    name. The avatar's place on the screen and the minimap marker are
    written only by pushed teleports and by the start button; a teleport
    arriving through the polled queue moves nothing. *)
Theorem display_written_only_by (events : list BrowserEvent) (p : Page) :
  (Forall (λ e, writes_status e = false) events →
   statusIndicator (deliver Number_toString String_toLowerCase events p)
   = statusIndicator p) ∧
  (Forall (λ e, writes_region e = false) events →
   region (deliver Number_toString String_toLowerCase events p) = region p) ∧
  (Forall (λ e, writes_marks e = false) events →
   marks (deliver Number_toString String_toLowerCase events p) = marks p).
Proof.
  revert p. induction events as [|e events IH]; intros p; [done|].
  unfold deliver in *. cbn [foldl].
  destruct (IH (handle Number_toString String_toLowerCase p e))
    as (IHs & IHr & IHm).
  destruct (handle_frame e p) as (Hs & Hr & Hm).
  repeat split; intros [He Hes]%Forall_cons.
  - rewrite IHs by done. by apply Hs.
  - rewrite IHr by done. by apply Hr.
  - rewrite IHm by done. by apply Hm.
Qed.

(** X21. A status the switch does not know is shown verbatim, with the class
    "status-" followed by the status, as long as it contains no whitespace;
    a status with whitespace makes the handler stop before the label is
    written, leaving the old label and an empty class. *)
Theorem unknown_status_passes_through (s : string) (p : Page) :
  ¬ known_status s →
  (has_whitespace s = false →
   updateStatus s p
   = Done (set_statusIndicator (mkIndicator ("status-" +:+ s) s) p)) ∧
  (has_whitespace s = true →
   updateStatus s p
   = Threw (set_statusIndicator
              (mkIndicator "" (textContent (statusIndicator p))) p)).
Proof.
  intros Hk. unfold updateStatus. split; intros ->; [|done].
  unfold status_label, known_status in *.
  rewrite !decide_False; [done|..]; intros ->; apply Hk; set_solver.
Qed.

(** *** The requests of a polling loop *)

Lemma requests_of_handle (loop : nat) (e : BrowserEvent) (p : Page) :
  requests_of loop (handle Number_toString String_toLowerCase p e)
  = requests_of loop p
    ++ (if is_tick_of loop e && bool_decide (loop ∈ intervals (poller p))
        then poll_pair loop else []).
Proof.
  unfold requests_of.
  rewrite (MainFacts.poller_handle Number_toString String_toLowerCase).
  destruct e as [| | |k|k data|k|k events|k|sender message|s|data];
    cbn [is_tick_of andb fetch pollEvents poller set_poller requests];
    rewrite ?app_nil_r; try done.
  - rewrite filter_app, filter_cons_False, filter_nil by done.
    by rewrite app_nil_r.
  - unfold on_tick. destruct (decide (k = loop)) as [->|Hne].
    + rewrite bool_decide_eq_true_2 by done. cbn [andb].
      case_decide as Hin.
      * rewrite bool_decide_eq_true_2 by done.
        cbn [fetch poller set_poller requests].
        rewrite !filter_app, !filter_cons_True, !filter_nil by done.
        by rewrite <- app_assoc.
      * rewrite bool_decide_eq_false_2 by done. by rewrite app_nil_r.
    + rewrite bool_decide_eq_false_2 by done. cbn [andb].
      rewrite app_nil_r. case_decide; [|done].
      cbn [fetch poller set_poller requests].
      rewrite !filter_app, !filter_cons_False, !filter_nil
        by (cbn; congruence).
      by rewrite !app_nil_r.
  - rewrite (MainFacts.poller_on_state Number_toString). by case_decide.
Qed.

(** X22. The requests of a polling loop come in rounds: whatever is delivered to
    the page, the loop's requests grow by whole pairs, [/api/state] followed
    by [/api/events], and by no more pairs than the loop's timer has
    fired. *)
Theorem polling_requests_in_pairs (loop : nat) (events : list BrowserEvent)
    (p : Page) :
  ∃ n : nat,
    (n ≤ length (filter (λ e, is_tick_of loop e = true) events))%nat ∧
    requests_of loop (deliver Number_toString String_toLowerCase events p)
    = requests_of loop p ++ mjoin (replicate n (poll_pair loop)).
Proof.
  revert p. induction events as [|e events IH]; intros p.
  - exists 0%nat. cbn. split; [lia | by rewrite app_nil_r].
  - unfold deliver in *. cbn [foldl].
    destruct (IH (handle Number_toString String_toLowerCase p e))
      as (n & Hn & ->).
    rewrite requests_of_handle, filter_cons.
    destruct (is_tick_of loop e) eqn:Ht; cbn [andb].
    + rewrite decide_True by done.
      destruct (bool_decide (loop ∈ intervals (poller p))).
      * exists (S n). split; [cbn; lia|]. by rewrite <- app_assoc.
      * exists n. split; [cbn; lia|]. by rewrite app_nil_r.
    + rewrite decide_False by done. exists n. split; [done|].
      by rewrite app_nil_r.
Qed.

End Facts.

Lemma display_written_only_by_witness :
  marks
    (deliver print_integer (λ s, s)
       [Tick 1;
        StateResponse 1 (mkSnapshot "completed" false None (Some "Plaza") None);
        EventsResponse 1 [TeleportEvent; LogEvent "moved" "INFO"];
        SocketStatus "in_world"]
       (pollEvents example_page))
  = marks (pollEvents example_page).
Proof.
  apply (proj2 (proj2 (display_written_only_by print_integer (λ s, s)
                         [Tick 1;
                          StateResponse 1
                            (mkSnapshot "completed" false None (Some "Plaza")
                                        None);
                          EventsResponse 1
                            [TeleportEvent; LogEvent "moved" "INFO"];
                          SocketStatus "in_world"]
                         (pollEvents example_page)))).
  repeat constructor.
Defined.

Lemma unknown_status_passes_through_witness :
  updateStatus "reconnecting" example_page
  = Done (set_statusIndicator
            (mkIndicator "status-reconnecting" "reconnecting") example_page).
Proof.
  apply (unknown_status_passes_through "reconnecting" example_page);
    [|reflexivity].
  unfold known_status. intros H.
  repeat (apply elem_of_cons in H as [H|H]; [discriminate H|]).
  by apply elem_of_nil in H.
Defined.

End ReconcilerFacts.

(** ** inventory.js: folders, items and drops *)

Module InventoryFacts.
Import Inventory.

Lemma all_items_cons (k : string) (folder : Folder)
    (fs : list (string * Folder)) (c : string) :
  all_items (mkInventoryManager c ((k, folder) :: fs))
  = items folder ++ all_items (mkInventoryManager c fs).
Proof. reflexivity. Qed.

Lemma find_item_Some (id : Z) (fs : list (string * Folder)) (item : Item) :
  find_item id fs = Some item →
  it_id item = id ∧ item ∈ fs ≫= (λ kv, items kv.2).
Proof.
  induction fs as [|[k folder] fs IH]; [done|]. cbn [find_item].
  destruct (list_find _ (items folder)) as [[i found]|] eqn:E.
  - intros [= ->]. apply list_find_Some in E as (Hi & Hid & _).
    split; [done|]. cbn. apply elem_of_app. left.
    apply list_elem_of_lookup. by exists i.
  - intros H. destruct (IH H) as [Hid Hin]. split; [done|].
    cbn. apply elem_of_app. by right.
Qed.

Lemma find_item_None (id : Z) (fs : list (string * Folder)) :
  find_item id fs = None ↔
  ∀ item, item ∈ fs ≫= (λ kv, items kv.2) → it_id item ≠ id.
Proof.
  induction fs as [|[k folder] fs IH]; cbn [find_item].
  - split; [|done]. intros _ item Hin. by apply elem_of_nil in Hin.
  - destruct (list_find _ (items folder)) as [[i found]|] eqn:E.
    + split; [done|]. intros H. exfalso.
      apply list_find_Some in E as (Hi & Hid & _).
      apply (H found); [|done]. cbn. apply elem_of_app. left.
      apply list_elem_of_lookup. by exists i.
    + rewrite IH. apply list_find_None in E. rewrite Forall_forall in E.
      split.
      * intros H item [Hin|Hin]%elem_of_app; [by apply E | by apply H].
      * intros H item Hin. apply H. cbn. apply elem_of_app. by right.
Qed.

(** X23. [getItemById] returns an item of the inventory that has the id asked
    for, and returns nothing exactly when no folder holds an item with that
    id. *)
Theorem getItemById_finds (id : Z) (s : InventoryManager) :
  (∀ item, getItemById id s = Some item →
           it_id item = id ∧ item ∈ all_items s) ∧
  (getItemById id s = None ↔
   ∀ item, item ∈ all_items s → it_id item ≠ id).
Proof.
  split; [intros item; apply find_item_Some | apply find_item_None].
Qed.

(** *** Folders stay *)

Lemma get_folder_set_folder (id k : string) (folder : Folder)
    (fs : list (string * Folder)) :
  get_folder k (set_folder id folder fs)
  = if decide (k = id) then Some folder else get_folder k fs.
Proof.
  induction fs as [|[k' v] fs IH]; cbn.
  - repeat case_decide; congruence.
  - repeat (case_decide; cbn); try congruence.
Qed.

Lemma folders_step (k : string) (s : InventoryManager) (o : InventoryOp) :
  is_Some (get_folder k (folders s)) →
  is_Some (get_folder k (folders (apply_op s o))).
Proof.
  intros Hk. destruct o as [id name|folderId item|folderId]; cbn.
  - rewrite get_folder_set_folder. by case_decide.
  - unfold addItem. destruct (get_folder folderId (folders s)); [|done].
    cbn. rewrite get_folder_set_folder. by case_decide.
  - unfold switchFolder. by destruct (get_folder folderId (folders s)).
Qed.

Lemma current_step (s : InventoryManager) (o : InventoryOp) :
  is_Some (get_folder (currentFolder s) (folders s)) →
  is_Some (get_folder (currentFolder (apply_op s o)) (folders (apply_op s o))).
Proof.
  intros Hc. destruct o as [id name|folderId item|folderId].
  - by apply (folders_step _ s (AddFolder id name)).
  - pose proof (folders_step _ s (AddItem folderId item) Hc) as H.
    cbn in *. unfold addItem in *.
    by destruct (get_folder folderId (folders s)).
  - cbn. unfold switchFolder.
    destruct (get_folder folderId (folders s)) eqn:E; [|done].
    cbn. by rewrite E.
Qed.

(** X24. No operation of the inventory removes a folder, and the current folder
    always exists: if it does in some state, it does after every sequence of
    folder additions, item additions and folder switches on plain folder
    ids, including switches to folders that do not exist. *)
Theorem current_folder_exists (ops : list InventoryOp) (s : InventoryManager) :
  Forall (λ o, plain_key (op_key o) = true) ops →
  is_Some (get_folder (currentFolder s) (folders s)) →
  is_Some (get_folder (currentFolder (foldl apply_op s ops))
                      (folders (foldl apply_op s ops))) ∧
  (∀ k, is_Some (get_folder k (folders s)) →
        is_Some (get_folder k (folders (foldl apply_op s ops)))).
Proof.
  intros _. revert s. induction ops as [|o ops IH]; intros s Hc; [done|].
  cbn [foldl]. destruct (IH (apply_op s o) (current_step s o Hc)) as [H1 H2].
  split; [done|]. intros k Hk. by apply H2, folders_step.
Qed.

(** *** Adding an item and finding it *)

Lemma find_item_added (item : Item) (folderId : string)
    (fs : list (string * Folder)) (folder : Folder) :
  get_folder folderId fs = Some folder →
  (∀ other, other ∈ fs ≫= (λ kv, items kv.2) → it_id other ≠ it_id item) →
  find_item (it_id item)
    (set_folder folderId
       (mkFolder (folder_name folder) (items folder ++ [item])) fs)
  = Some item.
Proof.
  induction fs as [|[k v] fs IH]; [done|]. cbn [get_folder set_folder].
  intros Hget Hfresh. case_decide as Hk.
  - injection Hget as ->. cbn [find_item items].
    rewrite list_find_app_r.
    + cbn. by rewrite decide_True.
    + apply list_find_None, Forall_forall. intros other Hin.
      apply Hfresh. cbn. apply elem_of_app. by left.
  - cbn [find_item].
    assert (list_find (λ i, it_id i = it_id item) (items v) = None) as ->.
    { apply list_find_None, Forall_forall. intros other Hin.
      apply Hfresh. cbn. apply elem_of_app. by left. }
    apply IH; [done|]. intros other Hin. apply Hfresh.
    cbn. apply elem_of_app. by right.
Qed.

Lemma find_item_other (id : Z) (item : Item) (folderId : string)
    (fs : list (string * Folder)) (folder : Folder) :
  get_folder folderId fs = Some folder →
  id ≠ it_id item →
  find_item id
    (set_folder folderId
       (mkFolder (folder_name folder) (items folder ++ [item])) fs)
  = find_item id fs.
Proof.
  induction fs as [|[k v] fs IH]; [done|]. cbn [get_folder set_folder].
  intros Hget Hne. case_decide as Hk.
  - injection Hget as ->. cbn [find_item items].
    destruct (list_find _ (items folder)) as [[i found]|] eqn:E.
    + by rewrite (list_find_app_l _ _ _ _ _ E).
    + rewrite list_find_app_r by done. cbn.
      by rewrite decide_False by congruence.
  - cbn [find_item]. by rewrite IH.
Qed.

(** X25. Adding an item to a folder that does not exist, under a plain folder
    id, changes nothing. Adding an item whose id is new to an existing
    folder makes [getItemById] find exactly that item under its id, and
    leaves the answer for every other id as it was. *)
Theorem addItem_then_getItemById (folderId : string) (item : Item)
    (s : InventoryManager) :
  (plain_key folderId = true →
   get_folder folderId (folders s) = None → addItem folderId item s = s) ∧
  (is_Some (get_folder folderId (folders s)) →
   (∀ other, other ∈ all_items s → it_id other ≠ it_id item) →
   getItemById (it_id item) (addItem folderId item s) = Some item ∧
   (∀ id, id ≠ it_id item →
          getItemById id (addItem folderId item s) = getItemById id s)).
Proof.
  unfold addItem, getItemById. split.
  - by intros _ ->.
  - intros [folder Hf] Hfresh. rewrite Hf. cbn. split.
    + by apply find_item_added.
    + intros id Hne. by apply find_item_other.
Qed.

Lemma current_folder_exists_witness :
  is_Some (get_folder
             (currentFolder
                (foldl apply_op demo_inventory
                   [SwitchFolder "objects"; SwitchFolder "attic";
                    AddFolder "attic" "Attic"]))
             (folders
                (foldl apply_op demo_inventory
                   [SwitchFolder "objects"; SwitchFolder "attic";
                    AddFolder "attic" "Attic"]))).
Proof.
  refine (proj1 (current_folder_exists
                   [SwitchFolder "objects"; SwitchFolder "attic";
                    AddFolder "attic" "Attic"] demo_inventory _ _)).
  - repeat constructor.
  - cbn. eexists. reflexivity.
Defined.

Lemma addItem_then_getItemById_witness :
  getItemById 9 (addItem "objects" (mkItem 9 "Lamp" "object" "A lamp")
                         demo_inventory)
  = Some (mkItem 9 "Lamp" "object" "A lamp").
Proof.
  apply (proj2 (addItem_then_getItemById "objects"
                  (mkItem 9 "Lamp" "object" "A lamp") demo_inventory)).
  - cbn. eexists. reflexivity.
  - intros other Hin. cbn in Hin.
    repeat (apply elem_of_cons in Hin as [->|Hin]; [discriminate|]).
    by apply elem_of_nil in Hin.
Defined.

End InventoryFacts.

(** ** inventory.js: what a drop on the scene does *)

Module DropFacts.
Import Inventory.

(** X26. A drop never changes the selection, the dispatched events or any mesh
    that existed before. It either leaves the pickable list and the registry
    as they are, or, for an item of type "object" or "texture", appends one
    node and one record: the record's type is "box", the mesh has the box
    geometry, and the avatar is not touched. A drag without an item, and an
    item of any type other than "object", "texture" and "clothing" (an item
    of type "mesh", say), changes nothing at all. *)
Theorem drop_places_only_boxes (data : option Item) (random1 random2 : float)
    (v : Viewer) :
  selectedObject (world (on_drop data random1 random2 v))
  = selectedObject (world v) ∧
  dispatched (world (on_drop data random1 random2 v)) = dispatched (world v) ∧
  (∀ r, r ≠ next_ref (world v) →
        heap (world (on_drop data random1 random2 v)) !! r
        = heap (world v) !! r) ∧
  ((sm_objects (world (on_drop data random1 random2 v)) = sm_objects (world v) ∧
    om_objects (world (on_drop data random1 random2 v)) = om_objects (world v))
   ∨ (∃ item d m,
        data = Some item ∧
        (it_type item = "object" ∨ it_type item = "texture") ∧
        sm_objects (world (on_drop data random1 random2 v))
        = sm_objects (world v) ++ [next_ref (world v)] ∧
        om_objects (world (on_drop data random1 random2 v))
        = om_objects (world v) ++ [d] ∧
        od_type d = "box" ∧
        heap (world (on_drop data random1 random2 v)) !! next_ref (world v)
        = Some m ∧
        geometry m = BoxGeometry 1 1 1 ∧
        agrees m d ∧
        avatarManager (on_drop data random1 random2 v) = avatarManager v ∧
        avatar (on_drop data random1 random2 v) = avatar v)) ∧
  (data = None → on_drop data random1 random2 v = v) ∧
  (∀ item, data = Some item →
           it_type item ≠ "object" → it_type item ≠ "texture" →
           it_type item ≠ "clothing" →
           on_drop data random1 random2 v = v).
Proof.
  destruct data as [item|]; cbn [on_drop]; [|by repeat split; auto].
  destruct (decide (it_type item = "object" ∨ it_type item = "texture"))
    as [Ht|Ht].
  - split; [done|]. split; [done|].
    split; [intros r Hr; cbn; by rewrite lookup_insert_ne|].
    split; [|split; [done|]; intros item' [= <-] H1 H2; tauto].
    right. eexists item, _, _. split; [done|]. split; [done|].
    split; [reflexivity|]. split; [reflexivity|].
    split; [cbn; by destruct Ht as [-> | ->]|].
    split; [cbn; apply lookup_insert_eq|].
    split; [cbn; by destruct Ht as [-> | ->]|].
    split; [apply agrees_mesh_of_data | done].
  - destruct (decide (it_type item = "clothing")) as [Hc|Hc].
    + split; [done|]. split; [done|]. split; [done|].
      split; [by left|]. split; [done|]. by intros item' [= <-].
    + by repeat split; auto.
Qed.

Lemma createHead_outfit (a : Avatar.AvatarManager) (style c1 c2 : string) :
  Avatar.createHead
    (Avatar.mkAvatarManager (Avatar.avatarHeight a) (Avatar.bodyShape a)
       (Avatar.skinColor a) (Avatar.hairStyle a) (Avatar.hairColor a)
       style c1 c2)
  = Avatar.createHead a ∧
  length (Avatar.createHead a) = 5%nat.
Proof.
  unfold Avatar.createHead. cbn.
  by destruct (Avatar.hair_placement _ _).
Qed.

(** X27. Dropping a clothing item changes the outfit and nothing else: the
    outfit style becomes casual with the two random colours, so the torso
    loses any metalness and roughness it had; height, body shape, skin and
    hair settings stay; head, hair, eyes and mouth are rebuilt exactly as
    they were and every part keeps its geometry; the scene's objects, the
    registry and the selection are not touched. *)
Theorem clothing_drop_keeps_body (item : Item) (random1 random2 : float)
    (v : Viewer) :
  it_type item = "clothing" →
  Avatar.outfitStyle (avatarManager (on_drop (Some item) random1 random2 v))
  = "casual" ∧
  Avatar.outfitPrimaryColor
    (avatarManager (on_drop (Some item) random1 random2 v))
  = random_colour random1 ∧
  Avatar.outfitSecondaryColor
    (avatarManager (on_drop (Some item) random1 random2 v))
  = random_colour random2 ∧
  Avatar.avatarHeight (avatarManager (on_drop (Some item) random1 random2 v))
  = Avatar.avatarHeight (avatarManager v) ∧
  Avatar.bodyShape (avatarManager (on_drop (Some item) random1 random2 v))
  = Avatar.bodyShape (avatarManager v) ∧
  Avatar.skinColor (avatarManager (on_drop (Some item) random1 random2 v))
  = Avatar.skinColor (avatarManager v) ∧
  Avatar.hairStyle (avatarManager (on_drop (Some item) random1 random2 v))
  = Avatar.hairStyle (avatarManager v) ∧
  Avatar.hairColor (avatarManager (on_drop (Some item) random1 random2 v))
  = Avatar.hairColor (avatarManager v) ∧
  avatar (on_drop (Some item) random1 random2 v)
  = Avatar.createAvatar
      (avatarManager (on_drop (Some item) random1 random2 v)) ∧
  take 5 (avatar (on_drop (Some item) random1 random2 v))
  = Avatar.createHead (avatarManager v) ∧
  Avatar.geometry <$> avatar (on_drop (Some item) random1 random2 v)
  = Avatar.geometry <$> Avatar.createAvatar (avatarManager v) ∧
  Avatar.material <$> avatar (on_drop (Some item) random1 random2 v) !! 5%nat
  = Some (Avatar.MeshStandardMaterial
            (Avatar.CssColor (random_colour random1)) None) ∧
  sm_objects (world (on_drop (Some item) random1 random2 v))
  = sm_objects (world v) ∧
  om_objects (world (on_drop (Some item) random1 random2 v))
  = om_objects (world v) ∧
  heap (world (on_drop (Some item) random1 random2 v)) = heap (world v) ∧
  selectedObject (world (on_drop (Some item) random1 random2 v))
  = selectedObject (world v).
Proof.
  intros Ht. cbn [on_drop]. rewrite Ht.
  rewrite decide_False by (intros [H|H]; discriminate H).
  rewrite decide_True by done.
  unfold handleClothingDrop, Avatar.updateAppearance.
  cbn [avatarManager avatar world Avatar.ap_height Avatar.ap_bodyShape
       Avatar.ap_skinColor Avatar.ap_hairStyle Avatar.ap_hairColor
       Avatar.ap_outfitStyle Avatar.ap_outfitPrimaryColor
       Avatar.ap_outfitSecondaryColor default from_option id
       Avatar.outfitStyle Avatar.outfitPrimaryColor
       Avatar.outfitSecondaryColor Avatar.avatarHeight Avatar.bodyShape
       Avatar.skinColor Avatar.hairStyle Avatar.hairColor].
  set (a := avatarManager v).
  destruct (createHead_outfit a "casual" (random_colour random1)
              (random_colour random2)) as [Hhead Hlen].
  do 9 (split; [reflexivity|]).
  unfold Avatar.createAvatar. rewrite Hhead.
  split; [by rewrite take_app_length' by done|].
  split.
  { rewrite !fmap_app. f_equal. f_equal.
    unfold Avatar.createTorso.
    cbn [Avatar.bodyShape Avatar.avatarHeight].
    by destruct (Avatar.torso_size _). }
  split; [|done].
  rewrite lookup_app_r by (rewrite Hlen; lia). rewrite Hlen.
  unfold Avatar.createTorso.
  cbn [Avatar.bodyShape Avatar.avatarHeight].
  by destruct (Avatar.torso_size _).
Qed.

Lemma clothing_drop_keeps_body_witness :
  Avatar.outfitStyle
    (avatarManager
       (on_drop (Some (mkItem 3 "Blue Shirt" "clothing" "A blue shirt"))
                0.5 0.25
                (mkViewer (initial_world true)
                          (Avatar.with_outfitStyle "formal"
                             Avatar.default_settings)
                          (Avatar.createAvatar
                             (Avatar.with_outfitStyle "formal"
                                Avatar.default_settings)))))
  = "casual".
Proof.
  apply (clothing_drop_keeps_body
           (mkItem 3 "Blue Shirt" "clothing" "A blue shirt") 0.5 0.25
           (mkViewer (initial_world true)
                     (Avatar.with_outfitStyle "formal" Avatar.default_settings)
                     (Avatar.createAvatar
                        (Avatar.with_outfitStyle "formal"
                           Avatar.default_settings)))).
  reflexivity.
Defined.

End DropFacts.
